(** * Geospatial-to-scene projection and render-pass orchestration

    A shallow embedding of [src/data/acquisition/blender.py] and of
    [src/data/transformation/remap.py], and the properties of the
    specification that were checked against it.

    Conventions of the embedding.

    - Python [float]s are idealised as real numbers ([R]): rounding is not
      modelled.  What Python's arithmetic refuses is kept: [a / b] raises
      [ZeroDivisionError] when [b = 0] and [math.log] raises [ValueError]
      on a non-positive argument.  The real and the floating-point result
      differ where rounding decides: a longitude offset within a rounding
      error of a quarter turn, a latitude at a pole (the real tangent is
      undefined there), a quotient that [int] truncates next to an
      integer, an overflow.  The properties of the arithmetic are stated
      away from these: they give the expression the program evaluates,
      operation by operation, or the value at an input where both
      results are the same.
    - Paths are compared as they are written.  On Windows [pathlib] and
      the volume fold case: there the properties of the file system are
      for names that differ by more than case, and the properties of the
      naming of the outputs are stated for POSIX.
    - A function that reads or writes the file system, or the scene of the
      render host ([bpy]), is a state transformer that returns either a
      value or the exception it raised, together with the state it left
      behind: what was written before an exception stays written.
    - [pathlib] and [bpy] are library code: their operations are modelled
      in the modules [pathlib] and [bpy] below, to the extent the program
      uses them. *)

From Stdlib Require Import List String Ascii Bool Arith ZArith Lia.
From Stdlib Require Import Reals Lra.
Import ListNotations.

Set Implicit Arguments.

(* ================================================================== *)
(** ** Python: exceptions and the state-and-exception monad *)

Module Py.

(** The built-in exceptions the program can raise. *)
Inductive exn : Type :=
| IndexError
| KeyError (key : string)
| ValueError
| ZeroDivisionError
| AttributeError
| UnboundLocalError
| FileExistsError
| FileNotFoundError
| IsADirectoryError
| NotADirectoryError
| OSError.


(** The outcome of a call: an exception or a value. *)
Inductive result (A : Type) : Type :=
| Raised (e : exn)
| Returned (a : A).
Arguments Raised {A} e.
Arguments Returned {A} a.


Definition bind_result {A B} (r : result A) (k : A -> result B) : result B :=
  match r with
  | Raised e => Raised e
  | Returned a => k a
  end.

(** A computation over a mutable state [St]. The state is returned in
    both outcomes. *)
Definition Exc (St A : Type) : Type := St -> result A * St.

Definition ret {St A} (a : A) : Exc St A := fun s => (Returned a, s).
Definition raise {St A} (e : exn) : Exc St A := fun s => (Raised e, s).
Definition bind {St A B} (m : Exc St A) (k : A -> Exc St B) : Exc St B :=
  fun s => match m s with
           | (Raised e, s') => (Raised e, s')
           | (Returned a, s') => k a s'
           end.
Definition get {St} : Exc St St := fun s => (Returned s, s).
Definition put {St} (s : St) : Exc St unit := fun _ => (Returned tt, s).
Definition modify {St} (f : St -> St) : Exc St unit := fun s => (Returned tt, f s).

(** A pure call that may raise. *)
Definition lift {St A} (r : result A) : Exc St A := fun s => (r, s).

(** Run a computation on a component [T] of the state [St]. *)
Definition zoom {St T A} (proj : St -> T) (upd : T -> St -> St)
           (m : Exc T A) : Exc St A :=
  fun s => let (r, t') := m (proj s) in (r, upd t' s).

(** [for x in xs: body(x)] *)
Fixpoint for_each {St A} (xs : list A) (body : A -> Exc St unit) : Exc St unit :=
  match xs with
  | [] => ret tt
  | x :: xs' => bind (body x) (fun _ => for_each xs' body)
  end.

(** [for i, x in enumerate(xs): body(i, x)], counting from [i]. *)
Fixpoint for_enumerate {St A} (i : nat) (xs : list A)
         (body : nat -> A -> Exc St unit) : Exc St unit :=
  match xs with
  | [] => ret tt
  | x :: xs' => bind (body i x) (fun _ => for_enumerate (S i) xs' body)
  end.

End Py.

Import Py.

Declare Scope py_scope.
Delimit Scope py_scope with py.
Notation "x <- m ;; k" := (bind m (fun x => k))
  (at level 61, m at next level, right associativity) : py_scope.
Notation "m ;;; k" := (bind m (fun _ => k))
  (at level 61, right associativity) : py_scope.
Notation "x <~ r ;; k" := (bind_result r (fun x => k))
  (at level 61, r at next level, right associativity) : py_scope.

(* ================================================================== *)
(** ** pathlib: pure paths *)

Module pathlib.

Inductive platform : Type := Posix | Windows.

(** A path is the list of its components below the anchor (drive and
    root), as [PurePath.parts] has them. *)
Definition Path : Type := list string.

Definition path_eq_dec : forall p q : Path, {p = q} + {p <> q} :=
  list_eq_dec string_dec.

Definition path_eqb (p q : Path) : bool :=
  if path_eq_dec p q then true else false.

(** [str.rfind(".")]: the index of the last dot. *)
Fixpoint rfind_dot (s : string) : option nat :=
  match s with
  | EmptyString => None
  | String c s' =>
      match rfind_dot s' with
      | Some i => Some (S i)
      | None => if Ascii.eqb c "."%char then Some 0 else None
      end
  end.

(** [PurePath.name] *)
Definition name (p : Path) : string := last p EmptyString.

(** [PurePath.parent] *)
Definition parent (p : Path) : Path := removelast p.

(** The index at which the suffix of a file name starts:
    [i = name.rfind(".")] when [0 < i < len(name) - 1]. *)
Definition suffix_index (nm : string) : option nat :=
  match rfind_dot nm with
  | Some i => if (0 <? i) && (i <? String.length nm - 1) then Some i else None
  | None => None
  end.

Definition name_suffix (nm : string) : string :=
  match suffix_index nm with
  | Some i => substring i (String.length nm - i) nm
  | None => EmptyString
  end.

Definition name_stem (nm : string) : string :=
  match suffix_index nm with
  | Some i => substring 0 i nm
  | None => nm
  end.

(** [PurePath.suffix] and [PurePath.stem] *)
Definition suffix (p : Path) : string := name_suffix (name p).
Definition stem (p : Path) : string := name_stem (name p).

Definition backslash : ascii := ascii_of_nat 92.

Definition is_sep (os : platform) (c : ascii) : bool :=
  match os with
  | Posix => Ascii.eqb c "/"%char
  | Windows => Ascii.eqb c "/"%char || Ascii.eqb c backslash
  end.

Fixpoint has_sep (os : platform) (s : string) : bool :=
  match s with
  | EmptyString => false
  | String c s' => is_sep os c || has_sep os s'
  end.

(** Split a string at the separators; empty components and dots are
    dropped, as [parse_parts] does. *)
Fixpoint split_parts (os : platform) (s : string) (cur : string) : list string :=
  let close (cur : string) (rest : list string) :=
    if String.eqb cur EmptyString || String.eqb cur "." then rest else cur :: rest in
  match s with
  | EmptyString => close cur []
  | String c s' =>
      if is_sep os c then close cur (split_parts os s' EmptyString)
      else split_parts os s' (cur ++ String c EmptyString)
  end.

(** [path / s] for a relative [s]. *)
Definition joinpath (os : platform) (p : Path) (s : string) : Path :=
  p ++ split_parts os s EmptyString.

(** [PurePath.with_name] *)
Definition with_name (os : platform) (p : Path) (nm : string) : result Path :=
  if String.eqb (name p) EmptyString then Raised ValueError
  else if String.eqb nm EmptyString || has_sep os nm || String.eqb nm "."
       then Raised ValueError
  else Returned (parent p ++ [nm]).

(** [PurePath.with_stem] *)
Definition with_stem (os : platform) (p : Path) (st : string) : result Path :=
  with_name os p (st ++ suffix p).

Definition startswith_dot (s : string) : bool :=
  match s with
  | String c _ => Ascii.eqb c "."%char
  | EmptyString => false
  end.

(** [PurePath.with_suffix] *)
Definition with_suffix (os : platform) (p : Path) (sfx : string) : result Path :=
  if has_sep os sfx then Raised ValueError
  else if (negb (String.eqb sfx EmptyString) && negb (startswith_dot sfx))
          || String.eqb sfx "."
       then Raised ValueError
  else if String.eqb (name p) EmptyString then Raised ValueError
  else
    let old_suffix := suffix p in
    let nm :=
      if String.eqb old_suffix EmptyString then (name p ++ sfx)%string
      else (substring 0 (String.length (name p) - String.length old_suffix)
                      (name p) ++ sfx)%string in
    Returned (parent p ++ [nm]).

End pathlib.

Import pathlib.
Open Scope string_scope.

(* ================================================================== *)
(** ** The file system, as [pathlib.Path] sees it *)

Module fsys.

Inductive inode : Type :=
| File (content : string)
| Directory.

(** The entries of the file system, each with its full path. A directory
    lists its children in the order of this list. *)
Definition filesystem : Type := list (Path * inode).

Fixpoint lookup (fs : filesystem) (p : Path) : option inode :=
  match fs with
  | [] => None
  | (q, n) :: fs' => if path_eqb q p then Some n else lookup fs' p
  end.

(** [Path.is_dir]; the anchor [[]] is a directory. *)
Definition is_dir (fs : filesystem) (p : Path) : bool :=
  match p with
  | [] => true
  | _ => match lookup fs p with
         | Some Directory => true
         | _ => false
         end
  end.

Definition is_child (d p : Path) : bool :=
  match p with
  | [] => false
  | _ => path_eqb (parent p) d
  end.

(** [Path.iterdir]: the children of [d], in directory order. *)
Definition iterdir (fs : filesystem) (d : Path) : list Path :=
  filter (is_child d) (map fst fs).

(** [fnmatch] for patterns made of literal characters and [*]. *)
Fixpoint fnmatch (pat s : string) {struct pat} : bool :=
  match pat with
  | EmptyString => String.eqb s EmptyString
  | String c pat' =>
      if Ascii.eqb c "*"%char then
        (fix star (s : string) : bool :=
           fnmatch pat' s
           || match s with
              | EmptyString => false
              | String _ s' => star s'
              end) s
      else
        match s with
        | EmptyString => false
        | String d s' => Ascii.eqb c d && fnmatch pat' s'
        end
  end.

(** [list(d.glob(pattern))] for a pattern of one component: nothing when
    [d] is not a directory. *)
Definition glob (fs : filesystem) (d : Path) (pattern : string) : list Path :=
  if is_dir fs d
  then filter (fun p => fnmatch pattern (name p)) (iterdir fs d)
  else [].

Fixpoint is_prefix (p q : Path) : bool :=
  match p, q with
  | [], _ => true
  | a :: p', b :: q' => String.eqb a b && is_prefix p' q'
  | _ :: _, [] => false
  end.

Definition remove (fs : filesystem) (p : Path) : filesystem :=
  filter (fun e => negb (path_eqb (fst e) p)) fs.

(** Give the entry [src] the path [dst]; what was at [dst] is gone. *)
Definition move_file (fs : filesystem) (src dst : Path) : filesystem :=
  map (fun e => if path_eqb (fst e) src then (dst, snd e) else e)
      (remove fs dst).

Definition relocate (src dst p : Path) : Path :=
  if is_prefix src p then (dst ++ skipn (List.length src) p)%list else p.

(** The same for a directory, which takes what is below it along. *)
Definition move_tree (fs : filesystem) (src dst : Path) : filesystem :=
  map (fun e => (relocate src dst (fst e), snd e)) (remove fs dst).

(** [Path.rename] ([os.rename]). An existing target is refused on
    Windows; on POSIX a file replaces a file and a directory replaces an
    empty directory. *)
Definition rename (os : platform) (src dst : Path) : Exc filesystem unit :=
  fun fs =>
    match lookup fs src with
    | None => (Raised FileNotFoundError, fs)
    | Some n =>
        if path_eqb src dst then (Returned tt, fs)
        else if negb (is_dir fs (parent dst)) then (Raised FileNotFoundError, fs)
        else
          match lookup fs dst, os with
          | Some _, Windows => (Raised FileExistsError, fs)
          | Some m, Posix =>
              match n, m with
              | File _, File _ => (Returned tt, move_file fs src dst)
              | File _, Directory => (Raised IsADirectoryError, fs)
              | Directory, File _ => (Raised NotADirectoryError, fs)
              | Directory, Directory =>
                  if is_prefix src dst then (Raised OSError, fs)
                  else match iterdir fs dst with
                       | [] => (Returned tt, move_tree fs src dst)
                       | _ :: _ => (Raised OSError, fs)
                       end
              end
          | None, _ =>
              match n with
              | File _ => (Returned tt, move_file fs src dst)
              | Directory =>
                  if is_prefix src dst then (Raised OSError, fs)
                  else (Returned tt, move_tree fs src dst)
              end
          end
    end.

End fsys.

Import fsys.

(** [xs[i]] *)
Definition getitem {A} (xs : list A) (i : nat) : result A :=
  match nth_error xs i with
  | Some x => Returned x
  | None => Raised IndexError
  end.

(* ================================================================== *)
(** ** blender.py: the pass reconciler *)

Module reconciler.

Section Reconciler.

Variable os : platform.

(** [output_dir.with_stem(f"{image_id}_{pass_name}").with_suffix(".jpg")] *)
Definition new_filepath (output_dir : Path) (image_id pass_name : string)
  : result Path :=
  (p <~ with_stem os output_dir (image_id ++ "_" ++ pass_name) ;;
   with_suffix os p ".jpg")%py.

(** The body of the loop of [move_render_passes]. *)
Definition move_render_pass (output_dir : Path) (image_id : string)
           (dir_ : Path) : Exc filesystem unit :=
  (fs <- get ;;
   pass_img_path <- lift (getitem (glob fs dir_ "*.*") 0) ;;
   let pass_name := stem (parent pass_img_path) in
   new_filepath <- lift (new_filepath output_dir image_id pass_name) ;;
   rename os pass_img_path new_filepath)%py.

Definition move_render_passes (save_dirs : list Path) (output_dir : Path)
  : Exc filesystem unit :=
  let image_id := stem output_dir in
  for_each save_dirs (move_render_pass output_dir image_id).

(** *** What the reconciler expects of a staging directory

    One staging directory as the render host leaves it: the
    directory, the one file in it, the content of that file, and the
    path the reconciler gives the file. *)
Record staged : Type := {
  staging_dir : Path;
  staged_file : Path;
  staged_content : string;
  target : Path
}.

(** In [fs] the staging directory of [j] holds the file of [j] and
    nothing else, the name of the file has a dot, and nothing is at
    the target yet. *)
Definition ready (output_dir : Path) (fs : filesystem) (j : staged) : Prop :=
  is_dir fs j.(staging_dir) = true
  /\ iterdir fs j.(staging_dir) = [j.(staged_file)]
  /\ fnmatch "*.*" (name j.(staged_file)) = true
  /\ lookup fs j.(staged_file) = Some (File j.(staged_content))
  /\ new_filepath output_dir (stem output_dir) (stem j.(staging_dir))
     = Returned j.(target)
  /\ lookup fs j.(target) = None.

End Reconciler.

End reconciler.

Import reconciler.

(* ================================================================== *)
(** ** math and numpy, over the reals *)

Module math.

Open Scope R_scope.

(** [math.radians] and [numpy.deg2rad] *)
Definition radians (x : R) : R := x * (PI / 180).
Definition deg2rad (xs : list R) : list R := map radians xs.

(** [a / b] on floats *)
Definition truediv (a b : R) : result R :=
  if Req_dec_T b 0 then Raised ZeroDivisionError else Returned (a / b).

(** [math.log] *)
Definition log (x : R) : result R :=
  if Rle_dec x 0 then Raised ValueError else Returned (ln x).

(** [int(x)]: truncation towards zero *)
Definition int (x : R) : Z :=
  if Rle_dec 0 x then Int_part x else (- Int_part (- x))%Z.

End math.

(* ================================================================== *)
(** ** blender.py: the projection and the pose *)

Module TransverseMercator.

Import math.
Open Scope R_scope.

Definition radius : R := 6378137.

(** The attributes of an instance: [self.lat] and [self.lon] are in
    radians. *)
Record t : Type := { lat : R; lon : R; scale : R }.

(** [__init__(self, lat=0, lon=0, scale=1)] *)
Definition default_scale : R := 1.

Definition init (lat lon scale : R) : t :=
  {| lat := radians lat; lon := radians lon; scale := scale |}.

Definition from_geographic (self : t) (lat lon : R) : result (R * R) :=
  let lat := radians lat in
  let lon := radians lon - self.(TransverseMercator.lon) in
  let B := sin lon * cos lat in
  (q <~ truediv (1 + B) (1 - B) ;;
   l <~ log q ;;
   let x := 0.5 * self.(scale) * radius * l in
   r <~ truediv (tan lat) (cos lon) ;;
   let y := self.(scale) * radius * (atan r - self.(TransverseMercator.lat)) in
   Returned (x, y))%py.

End TransverseMercator.

Module pose.

Import math.
Open Scope R_scope.

Definition mapillary_to_euler (compass_orientation : R) : list R :=
  let euler_rotation := [90; 0; - compass_orientation] in
  deg2rad euler_rotation.

End pose.

(* ================================================================== *)
(** ** bpy: the scene of the render host *)

Module bpy.

(** The camera object and its data. *)
Record camera : Type := {
  location : R * R * R;
  rotation_euler : list R;
  camera_type : string;
  panorama_type : string;
  panorama_resolution : Z
}.

Record render_settings : Type := {
  engine : string;
  resolution_x : Z;
  resolution_y : Z;
  file_format : string
}.

(** A compositor node. Python holds a node by reference; here the
    reference is [node_id]. *)
Record node : Type := {
  node_id : nat;
  bl_idname : string;
  node_name : string;
  node_location : Z * Z;
  base_path : option Path
}.

(** A link from the output socket [from_socket] of the node [from_node]
    to the input socket number [to_socket] of the node [to_node]. *)
Record link : Type := {
  from_node : nat;
  from_socket : string;
  to_node : nat;
  to_socket : nat
}.

Record node_tree : Type := {
  nodes : list node;
  links : list link;
  next_id : nat
}.

(** [bpy.context.scene]. [view_layer_passes] names the output sockets
    that a render-layers node of this scene has: the passes enabled on
    the view layer. [properties] are the custom properties
    [scene["..."]]. The compositing tree is taken to be enabled
    ([scene.use_nodes]). *)
Record scene : Type := {
  scene_camera : option camera;
  render : render_settings;
  tree : node_tree;
  view_layer_passes : list string;
  properties : list (string * R)
}.

Definition set_camera (c : option camera) (sc : scene) : scene :=
  {| scene_camera := c; render := sc.(render); tree := sc.(tree);
     view_layer_passes := sc.(view_layer_passes);
     properties := sc.(properties) |}.

Definition set_render (r : render_settings) (sc : scene) : scene :=
  {| scene_camera := sc.(scene_camera); render := r; tree := sc.(tree);
     view_layer_passes := sc.(view_layer_passes);
     properties := sc.(properties) |}.

Definition set_tree (t : node_tree) (sc : scene) : scene :=
  {| scene_camera := sc.(scene_camera); render := sc.(render); tree := t;
     view_layer_passes := sc.(view_layer_passes);
     properties := sc.(properties) |}.

(** Assigning to an attribute of [scene.camera], which is [None] when
    the scene has no camera. *)
Definition camera_setattr (f : camera -> camera) : Exc scene unit :=
  fun sc =>
    match sc.(scene_camera) with
    | None => (Raised AttributeError, sc)
    | Some c => (Returned tt, set_camera (Some (f c)) sc)
    end.

Definition with_location (v : R * R * R) (c : camera) : camera :=
  {| location := v; rotation_euler := c.(rotation_euler);
     camera_type := c.(camera_type); panorama_type := c.(panorama_type);
     panorama_resolution := c.(panorama_resolution) |}.

Definition with_rotation_euler (v : list R) (c : camera) : camera :=
  {| location := c.(location); rotation_euler := v;
     camera_type := c.(camera_type); panorama_type := c.(panorama_type);
     panorama_resolution := c.(panorama_resolution) |}.

(** [scene[key]] *)
Fixpoint assoc (key : string) (kvs : list (string * R)) : option R :=
  match kvs with
  | [] => None
  | (k, v) :: kvs' => if String.eqb k key then Some v else assoc key kvs'
  end.

Definition scene_getitem (key : string) : Exc scene R :=
  fun sc =>
    match assoc key sc.(properties) with
    | Some v => (Returned v, sc)
    | None => (Raised (KeyError key), sc)
    end.

(** *** The node tree *)

(** [tree.nodes.new(type)]: the new node comes last. *)
Definition nodes_new (type : string) : Exc scene nat :=
  fun sc =>
    let t := sc.(tree) in
    let n := {| node_id := t.(next_id); bl_idname := type; node_name := type;
                node_location := (0, 0)%Z; base_path := None |} in
    (Returned t.(next_id),
     set_tree {| nodes := t.(nodes) ++ [n]; links := t.(links);
                 next_id := S t.(next_id) |} sc).

(** [tree.nodes.remove(node)]: the links of the node go with it. *)
Definition nodes_remove (id : nat) : Exc scene unit :=
  fun sc =>
    let t := sc.(tree) in
    (Returned tt,
     set_tree {| nodes := filter (fun n => negb (Nat.eqb n.(node_id) id)) t.(nodes);
                 links := filter (fun l => negb (Nat.eqb l.(from_node) id)
                                           && negb (Nat.eqb l.(to_node) id))
                                 t.(links);
                 next_id := t.(next_id) |} sc).

(** Assigning to an attribute of a node. *)
Definition node_setattr (id : nat) (f : node -> node) : Exc scene unit :=
  fun sc =>
    let t := sc.(tree) in
    (Returned tt,
     set_tree {| nodes := map (fun n => if Nat.eqb n.(node_id) id then f n else n)
                              t.(nodes);
                 links := t.(links); next_id := t.(next_id) |} sc).

Definition with_node_location (v : Z * Z) (n : node) : node :=
  {| node_id := n.(node_id); bl_idname := n.(bl_idname);
     node_name := n.(node_name); node_location := v;
     base_path := n.(base_path) |}.

Definition with_node_name (v : string) (n : node) : node :=
  {| node_id := n.(node_id); bl_idname := n.(bl_idname);
     node_name := v; node_location := n.(node_location);
     base_path := n.(base_path) |}.

Definition with_base_path (v : Path) (n : node) : node :=
  {| node_id := n.(node_id); bl_idname := n.(bl_idname);
     node_name := n.(node_name); node_location := n.(node_location);
     base_path := Some v |}.

(** [renderlayers_node.outputs[name]]: the socket, as the pair of the
    node and the name. *)
Definition outputs_getitem (id : nat) (key : string) : Exc scene (nat * string) :=
  fun sc =>
    if existsb (String.eqb key) sc.(view_layer_passes)
    then (Returned (id, key), sc)
    else (Raised (KeyError key), sc).

(** [fileoutput_node.inputs[0]]: a file-output node is created with one
    input. *)
Definition inputs_getitem (id : nat) (i : nat) : Exc scene (nat * nat) :=
  fun sc =>
    match i with
    | O => (Returned (id, i), sc)
    | S _ => (Raised IndexError, sc)
    end.

(** [tree.links.new(output, input)]: an input holds one link. *)
Definition links_new (output : nat * string) (input : nat * nat) : Exc scene unit :=
  fun sc =>
    let t := sc.(tree) in
    let l := {| from_node := fst output; from_socket := snd output;
                to_node := fst input; to_socket := snd input |} in
    (Returned tt,
     set_tree {| nodes := t.(nodes);
                 links := filter (fun k => negb (Nat.eqb k.(to_node) (fst input)
                                                 && Nat.eqb k.(to_socket) (snd input)))
                                 t.(links) ++ [l];
                 next_id := t.(next_id) |} sc).

(** The tree without the nodes that have an identifier in [ids], and
    without the links that touch one of them. *)
Definition without (ids : list nat) (t : node_tree) : node_tree :=
  {| nodes := filter (fun n => negb (existsb (Nat.eqb n.(node_id)) ids)) t.(nodes);
     links := filter (fun l => negb (existsb (Nat.eqb l.(from_node)) ids)
                               && negb (existsb (Nat.eqb l.(to_node)) ids))
                     t.(links);
     next_id := t.(next_id) |}.

(** Every link of the tree joins two nodes of the tree. *)
Definition links_closed (t : node_tree) : Prop :=
  forall l, In l t.(links) ->
    In l.(from_node) (map node_id t.(nodes))
    /\ In l.(to_node) (map node_id t.(nodes)).

End bpy.

Import bpy.

(** A loop that assigns to a local variable: [body] receives the value
    the variable has when the iteration starts and returns the one it
    has when the iteration ends. [i] is the count of [enumerate]. *)
Fixpoint for_enumerate_var {St A V} (i : nat) (xs : list A) (v : V)
         (body : nat -> A -> V -> Exc St V) : Exc St V :=
  match xs with
  | [] => ret v
  | x :: xs' => bind (body i x v) (fun v' => for_enumerate_var (S i) xs' v' body)
  end.

(** [xs[i] = x] *)
Fixpoint setitem {A} (xs : list A) (i : nat) (x : A) : result (list A) :=
  match xs, i with
  | [], _ => Raised IndexError
  | _ :: xs', O => Returned (x :: xs')
  | y :: xs', S i' =>
      match setitem xs' i' x with
      | Raised e => Raised e
      | Returned ys => Returned (y :: ys)
      end
  end.

(* ================================================================== *)
(** ** blender.py: camera, render graph and driver *)

Module blender.

Import math.

(** [create_camera(width=2048, aspect_ratio=2)]. The three operators
    that open the function delete every camera object, so the scene is
    left without a camera until the new one is assigned. *)
Definition default_width : Z := 2048.
Definition default_aspect_ratio : R := 2.

Definition create_camera (width : Z) (aspect_ratio : R) : Exc scene unit :=
  (modify (set_camera None) ;;;
   modify (fun sc => set_render
     {| engine := "CYCLES"; resolution_x := sc.(render).(resolution_x);
        resolution_y := sc.(render).(resolution_y);
        file_format := sc.(render).(file_format) |} sc) ;;;
   let camera :=
     {| location := (0, 0, 0)%R; rotation_euler := [0; 0; 0]%R;
        camera_type := "PANO"; panorama_type := "EQUIRECTANGULAR";
        panorama_resolution := width |} in
   modify (set_camera (Some camera)) ;;;
   modify (fun sc => set_render
     {| engine := sc.(render).(engine); resolution_x := width;
        resolution_y := sc.(render).(resolution_y);
        file_format := sc.(render).(file_format) |} sc) ;;;
   q <- lift (truediv (IZR width) aspect_ratio) ;;
   modify (fun sc => set_render
     {| engine := sc.(render).(engine);
        resolution_x := sc.(render).(resolution_x);
        resolution_y := int q;
        file_format := sc.(render).(file_format) |} sc) ;;;
   modify (fun sc => set_render
     {| engine := sc.(render).(engine);
        resolution_x := sc.(render).(resolution_x);
        resolution_y := sc.(render).(resolution_y);
        file_format := "JPEG" |} sc))%py.

Section RenderGraph.

Variable os : platform.

(** The body of the second loop of [create_nodes]; [save_dirs] is the
    local list the loop fills. *)
Definition create_node (tmp_dir : Path) (renderlayers_node : nat)
           (i : nat) (render_pass_name : string) (save_dirs : list Path)
  : Exc scene (list Path) :=
  (fileoutput_node <- nodes_new "CompositorNodeOutputFile" ;;
   node_setattr fileoutput_node
     (with_node_location (400, -120 * Z.of_nat i)%Z) ;;;
   node_setattr fileoutput_node (with_node_name render_pass_name) ;;;
   save_dirs <- lift (setitem save_dirs i (joinpath os tmp_dir render_pass_name)) ;;
   save_dir <- lift (getitem save_dirs i) ;;
   node_setattr fileoutput_node (with_base_path save_dir) ;;;
   render_pass <- outputs_getitem renderlayers_node render_pass_name ;;
   input <- inputs_getitem fileoutput_node 0 ;;
   links_new render_pass input ;;;
   ret save_dirs)%py.

(** [create_nodes]. The first loop visits the nodes the tree has when
    the loop starts. The list of [len(render_pass_names)] empty
    strings is a list of empty paths. *)
Definition create_nodes (tmp_dir : Path) (render_pass_names : list string)
  : Exc scene (list Path) :=
  (sc <- get ;;
   for_each sc.(tree).(nodes) (fun node => nodes_remove node.(node_id)) ;;;
   renderlayers_node <- nodes_new "CompositorNodeRLayers" ;;
   node_setattr renderlayers_node (with_node_location (0, 0)%Z) ;;;
   node_setattr renderlayers_node (with_node_name "RenderLayers") ;;;
   let save_dirs := repeat ([] : Path) (List.length render_pass_names) in
   for_enumerate_var 0 render_pass_names save_dirs
                     (create_node tmp_dir renderlayers_node))%py.

(** *** What [create_nodes] builds

    The node tree after [create_nodes], written out: the
    render-layers node, which gets the identifier [src], and then for
    the [i]-th pass name a file-output node and the link that feeds
    it. *)
Definition source_node (src : nat) : node :=
  {| node_id := src; bl_idname := "CompositorNodeRLayers";
     node_name := "RenderLayers"; node_location := (0, 0)%Z;
     base_path := None |}.

Definition sink_node (tmp_dir : Path) (src i : nat) (render_pass_name : string)
  : node :=
  {| node_id := src + 1 + i; bl_idname := "CompositorNodeOutputFile";
     node_name := render_pass_name;
     node_location := (400, -120 * Z.of_nat i)%Z;
     base_path := Some (joinpath os tmp_dir render_pass_name) |}.

Definition sink_link (src i : nat) (render_pass_name : string) : link :=
  {| from_node := src; from_socket := render_pass_name;
     to_node := src + 1 + i; to_socket := 0 |}.

Fixpoint imap_from {A B} (i : nat) (f : nat -> A -> B) (xs : list A) : list B :=
  match xs with
  | [] => []
  | x :: xs' => f i x :: imap_from (S i) f xs'
  end.

Definition built_tree (tmp_dir : Path) (src : nat)
           (render_pass_names : list string) : node_tree :=
  {| nodes := source_node src
              :: imap_from 0 (sink_node tmp_dir src) render_pass_names;
     links := imap_from 0 (sink_link src) render_pass_names;
     next_id := src + 1 + List.length render_pass_names |}.

End RenderGraph.

(** [place_camera(xyz, computed_compass_angle, offset_altitude=0.3)] *)
Definition default_offset_altitude : R := 0.3%R.

Definition place_camera (xyz : R * R * R) (computed_compass_angle : R)
           (offset_altitude : R) : Exc scene unit :=
  let '(x, y, z) := xyz in
  (camera_setattr (with_location (x, y, z + offset_altitude)%R) ;;;
   camera_setattr
     (with_rotation_euler (pose.mapillary_to_euler computed_compass_angle)))%py.

(** *** The driver *)

(** A row of the dataset, restricted to the columns [read_data] yields:
    [image_id], [lon], [lat], [computed_altitude],
    [computed_compass_angle]. *)
Definition row : Type := (string * R * R * R * R)%type.

(** Everything the driver acts on. *)
Record world : Type := { files : filesystem; the_scene : scene }.

Definition in_scene {A} (m : Exc scene A) : Exc world A :=
  zoom the_scene (fun sc w => {| files := w.(files); the_scene := sc |}) m.

Definition in_files {A} (m : Exc filesystem A) : Exc world A :=
  zoom files (fun fs w => {| files := fs; the_scene := w.(the_scene) |}) m.

Section Driver.

Variable os : platform.

(** [bpy.ops.render.render(write_still=True)]: the render host writes
    the files of the passes. *)
Variable render_still : Exc world unit.

(** [pd.read_feather]: the rows of the dataset at a path. *)
Variable read_feather : Path -> Exc world (list row).

Definition read_data (dataset : Path) : Exc world (list row) :=
  read_feather dataset.

(** The body of the loop of [main2]. *)
Definition main2_record (projection : TransverseMercator.t)
           (save_dirs : list Path) (savedir : Path)
           (streetview_data : row) : Exc world unit :=
  let '(image_id, lon, lat, alt, computed_compass_angle) := streetview_data in
  (xy <- lift (TransverseMercator.from_geographic projection lat lon) ;;
   let '(x, y) := xy in
   in_scene (place_camera (x, y, alt) computed_compass_angle
                          default_offset_altitude) ;;;
   render_still ;;;
   in_files (move_render_passes os save_dirs (joinpath os savedir image_id)))%py.

Definition main2 : Exc world unit :=
  let render_pass_names := ["Depth"; "Normal"; "DiffCol"] in
  let root_dir :=
    split_parts os
      "C:\Users\marco\Documents\Cours\Individual Research Project - IRP\code\data"
      EmptyString in
  let tmp_dir := joinpath os root_dir "tmp" in
  let dataset_path := joinpath os root_dir "dataset.arrow" in
  let savedir := joinpath os root_dir "blender" in
  (in_scene (create_camera default_width default_aspect_ratio) ;;;
   save_dirs <- in_scene (create_nodes os tmp_dir render_pass_names) ;;
   lat <- in_scene (scene_getitem "lat") ;;
   lon <- in_scene (scene_getitem "lon") ;;
   let projection :=
     TransverseMercator.init lat lon TransverseMercator.default_scale in
   rows <- read_data dataset_path ;;
   for_each rows (main2_record projection save_dirs savedir))%py.

End Driver.

End blender.

(* ================================================================== *)
(** ** remap.py: [toNumpy] *)

Module remap.

Section ToNumpy.

(** The elements of a tensor and of a [float32] array, and the
    conversion [astype(np.float32)] of one element. *)
Variables (elt f32 : Type) (to_float32 : elt -> f32).

(** A tensor or an array: its shape and the element at each index. *)
Record ndarray (T : Type) : Type := {
  shape : list nat;
  at_index : list nat -> T
}.

(** [imgs.permute(dims)]: axis [k] of the result is axis [dims[k]] of
    the argument. The element of the result at [idx] is the element of
    the argument at the index that has [idx[k]] at position [dims[k]]. *)
Definition scatter (dims idx : list nat) (rank : nat) : list nat :=
  map (fun a =>
         match find (fun kd => Nat.eqb (snd kd) a)
                    (combine (seq 0 (List.length dims)) dims) with
         | Some (k, _) => nth k idx 0
         | None => 0
         end)
      (seq 0 rank).

Definition permute (imgs : ndarray elt) (dims : list nat) : ndarray elt :=
  {| shape := map (fun d => nth d imgs.(shape) 0) dims;
     at_index := fun idx =>
       imgs.(at_index) (scatter dims idx (List.length imgs.(shape))) |}.

(** [imgs_norm.numpy().astype(np.float32)] *)
Definition astype_float32 (a : ndarray elt) : ndarray f32 :=
  {| shape := a.(shape); at_index := fun idx => to_float32 (a.(at_index) idx) |}.

(** [toNumpy.__call__]. [detach()] and [cpu()] keep shape and
    elements. The local [imgs_norm] is bound in two of the three
    branches only: [None] stands for the unbound name. *)
Definition toNumpy_call (imgs : ndarray elt) : result (ndarray f32) :=
  let imgs_norm : option (ndarray elt) :=
    if Nat.eqb (List.length imgs.(shape)) 3 then Some (permute imgs [1; 2; 0])
    else if Nat.eqb (List.length imgs.(shape)) 4 then Some (permute imgs [0; 2; 3; 1])
    else None in
  match imgs_norm with
  | None => Raised UnboundLocalError
  | Some imgs_norm =>
      let imgs_np := astype_float32 imgs_norm in
      Returned imgs_np
  end.

End ToNumpy.

End remap.

(* ================================================================== *)
(** ** blender.py: the compositing tree of the single-output renderer *)

Module compositor.

(** [tree.nodes.get(name)]: the first node of that name, or [None]. *)
Definition nodes_get (name : string) : Exc scene (option nat) :=
  fun sc =>
    (Returned (option_map node_id
                 (find (fun n => String.eqb n.(node_name) name) sc.(tree).(nodes))),
     sc).

(** Reading an attribute of what [nodes.get] returned. *)
Definition getattr (node : option nat) : Exc scene nat :=
  match node with
  | Some id => ret id
  | None => raise AttributeError
  end.

(** [init_node_tree]. The assignment [scene.use_nodes = True] leaves the
    modelled scene as it is: its tree is taken to be enabled. *)
Definition init_node_tree : Exc scene unit :=
  (rl_node <- nodes_new "CompositorNodeRLayers" ;;
   node_setattr rl_node (with_node_location (0, 0)%Z) ;;;
   node_setattr rl_node (with_node_name "RenderLayers") ;;;
   composite_node <- nodes_new "CompositorNodeComposite" ;;
   node_setattr composite_node (with_node_location (400, 0)%Z) ;;;
   node_setattr composite_node (with_node_name "Composite"))%py.

Definition select_pass (pass_name : string) : Exc scene unit :=
  (rl_node <- nodes_get "RenderLayers" ;;
   composite_node <- nodes_get "Composite" ;;
   rl <- getattr rl_node ;;
   render_pass <- outputs_getitem rl pass_name ;;
   composite <- getattr composite_node ;;
   input <- inputs_getitem composite 0 ;;
   links_new render_pass input)%py.

Definition clean_nodes : Exc scene unit :=
  (sc <- get ;;
   for_each sc.(tree).(nodes) (fun node => nodes_remove node.(node_id)))%py.

(** The composite node as [init_node_tree] leaves it. *)
Definition composite_node (id : nat) : node :=
  {| node_id := id; bl_idname := "CompositorNodeComposite";
     node_name := "Composite"; node_location := (400, 0)%Z;
     base_path := None |}.

End compositor.

(* ================================================================== *)
(** ** blender.py: the locals of [main2] and the world after its setup *)

Module driver.

Import blender.

Definition render_pass_names : list string := ["Depth"; "Normal"; "DiffCol"].

Definition root_dir (os : platform) : Path :=
  split_parts os
    "C:\Users\marco\Documents\Cours\Individual Research Project - IRP\code\data"
    EmptyString.

Definition tmp_dir (os : platform) : Path := joinpath os (root_dir os) "tmp".
Definition dataset_path (os : platform) : Path :=
  joinpath os (root_dir os) "dataset.arrow".
Definition savedir (os : platform) : Path := joinpath os (root_dir os) "blender".

(** The scene after [create_camera()] with its default arguments. *)
Definition with_new_camera (sc : scene) : scene :=
  {| scene_camera :=
       Some {| location := (0, 0, 0)%R; rotation_euler := [0; 0; 0]%R;
               camera_type := "PANO"; panorama_type := "EQUIRECTANGULAR";
               panorama_resolution := default_width |};
     render := {| engine := "CYCLES"; resolution_x := default_width;
                  resolution_y := math.int (IZR default_width / default_aspect_ratio);
                  file_format := "JPEG" |};
     tree := sc.(tree);
     view_layer_passes := sc.(view_layer_passes);
     properties := sc.(properties) |}.

(** The world when the loop of [main2] is about to read the dataset. *)
Definition after_setup (os : platform) (w : world) : world :=
  {| files := w.(files);
     the_scene :=
       set_tree (built_tree os (tmp_dir os) w.(the_scene).(tree).(next_id)
                            render_pass_names)
                (with_new_camera w.(the_scene)) |}.

End driver.

(* ================================================================== *)
(** ** remap.py: [Remap] *)

Module rescale.

Import remap.
Open Scope R_scope.

(** The attributes of an instance.
    [__init__(self, in_min, in_max, out_min=-1, out_max=1)] *)
Record Remap : Type := {
  in_min : R;
  in_max : R;
  out_min : R;
  out_max : R
}.

Definition default_out_min : R := -1.
Definition default_out_max : R := 1.

(** A tensor of floats, its elements idealised as reals. *)
Definition Tensor : Type := ndarray R.

(** [(imgs - a) * s + b] with scalars [a], [s], [b]: element by element. *)
Definition affine (a s b : R) (imgs : Tensor) : Tensor :=
  {| shape := imgs.(shape);
     at_index := fun idx => (imgs.(at_index) idx - a) * s + b |}.

(** A [dict] with string keys: the keys in insertion order. *)
Definition dict : Type := list (string * Tensor).

(** [d[key]] *)
Fixpoint dict_get (d : dict) (key : string) : option Tensor :=
  match d with
  | [] => None
  | (k, v) :: d' => if String.eqb k key then Some v else dict_get d' key
  end.

(** [d[key] = v]: the value of an existing key is replaced where it is, a
    new key comes last. *)
Fixpoint dict_set (d : dict) (key : string) (v : Tensor) : dict :=
  match d with
  | [] => [(key, v)]
  | (k, w) :: d' =>
      if String.eqb k key then (k, v) :: d' else (k, w) :: dict_set d' key v
  end.

(** What [__call__] can be given: a [dict], a [Tensor], or a value of
    another type. *)
Inductive argument : Type :=
| Dict (d : dict)
| OneTensor (t : Tensor)
| Other.

(** The exceptions of [__call__]: the built-in ones of the rest of the
    program, and [TypeError]. *)
Inductive raised : Type :=
| Builtin (e : exn)
| TypeError.

Inductive outcome : Type :=
| Raises (e : raised)
| Returns (a : argument).

(** [Remap.__call__]. A [dict] is changed in place and returned: the
    second component is the argument as the caller finds it after the
    call. *)
Definition call (self : Remap) (imgs : argument) : outcome * argument :=
  match math.truediv (self.(out_max) - self.(out_min))
                     (self.(in_max) - self.(in_min)) with
  | Raised e => (Raises (Builtin e), imgs)
  | Returned scale_factor =>
      match imgs with
      | Dict d =>
          match dict_get d "streetview" with
          | None => (Raises (Builtin (KeyError "streetview")), Dict d)
          | Some streetview =>
              let d1 := dict_set d "streetview"
                          (affine self.(in_min) scale_factor self.(out_min) streetview) in
              match dict_get d1 "simulated" with
              | None => (Raises (Builtin (KeyError "simulated")), Dict d1)
              | Some simulated =>
                  let d2 := dict_set d1 "simulated"
                              (affine self.(in_min) scale_factor self.(out_min) simulated) in
                  (Returns (Dict d2), Dict d2)
              end
          end
      | OneTensor t =>
          (Returns (OneTensor (affine self.(in_min) scale_factor self.(out_min) t)),
           OneTensor t)
      | Other => (Raises TypeError, Other)
      end
  end.

(** [imgs[b]] for a tensor of images: the image number [b]. *)
Definition select {T} (imgs : ndarray T) (b : nat) : ndarray T :=
  {| shape := tl imgs.(shape);
     at_index := fun idx => imgs.(at_index) (b :: idx) |}.

End rescale.

(* ================================================================== *)
(** ** Sample states *)

Module samples.

(** A scene as [create_camera] leaves it, with five passes enabled. *)
Definition scene0 : scene :=
  {| scene_camera :=
       Some {| location := (0, 0, 0)%R; rotation_euler := [0; 0; 0]%R;
               camera_type := "PANO"; panorama_type := "EQUIRECTANGULAR";
               panorama_resolution := 2048%Z |};
     render := {| engine := "CYCLES"; resolution_x := 2048%Z;
                  resolution_y := 1024%Z; file_format := "JPEG" |};
     tree := {| nodes := []; links := []; next_id := 0 |};
     view_layer_passes := ["Image"; "Alpha"; "Depth"; "Normal"; "DiffCol"];
     properties := [("lat", 45%R); ("lon", 45%R)] |}.

(** A scene without a camera whose compositing tree holds two linked
    nodes from an earlier setup. *)
Definition stale_scene : scene :=
  {| scene_camera := None;
     render := {| engine := "CYCLES"; resolution_x := 2048%Z;
                  resolution_y := 1024%Z; file_format := "JPEG" |};
     tree :=
       {| nodes := [ {| node_id := 0; bl_idname := "CompositorNodeRLayers";
                        node_name := "RenderLayers"; node_location := (0, 0)%Z;
                        base_path := None |};
                     {| node_id := 1; bl_idname := "CompositorNodeComposite";
                        node_name := "Composite"; node_location := (400, 0)%Z;
                        base_path := None |} ];
          links := [ {| from_node := 0; from_socket := "Image";
                        to_node := 1; to_socket := 0 |} ];
          next_id := 2 |};
     view_layer_passes := ["Image"; "Alpha"; "Depth"; "Normal"; "DiffCol"];
     properties := [] |}.

(** A file system that has the staging root and nothing below it. *)
Definition bare_world : blender.world :=
  {| blender.files := [(["tmp"], Directory)];
     blender.the_scene := stale_scene |}.

(** The directories of a run that renders the passes [Depth] and
    [Normal] into [tmp] and collects them in [blender]. *)
Definition directories : filesystem :=
  [ (["tmp"], Directory); (["blender"], Directory);
    (["tmp"; "Depth"], Directory); (["tmp"; "Normal"], Directory) ].

(** After a render: one file in each staging directory. *)
Definition rendered : filesystem :=
  (directories
   ++ [ (["tmp"; "Depth"; "Image0001.png"], File "depth of A");
        (["tmp"; "Normal"; "Image0001.png"], File "normal of A") ])%list.

Definition rendered_passes : list staged :=
  [ {| staging_dir := ["tmp"; "Depth"];
       staged_file := ["tmp"; "Depth"; "Image0001.png"];
       staged_content := "depth of A";
       target := ["blender"; "A_Depth.jpg"] |};
    {| staging_dir := ["tmp"; "Normal"];
       staged_file := ["tmp"; "Normal"; "Image0001.png"];
       staged_content := "normal of A";
       target := ["blender"; "A_Normal.jpg"] |} ].

(** A file of an earlier record is still in the staging directory of
    [Depth]. *)
Definition stale : filesystem :=
  (directories
   ++ [ (["tmp"; "Depth"; "Image0001.png"], File "depth of A");
        (["tmp"; "Depth"; "Image0002.png"], File "depth of B") ])%list.

(** The render wrote the pass [Depth] only. *)
Definition depth_only : filesystem :=
  (directories
   ++ [ (["tmp"; "Depth"; "Image0001.png"], File "depth of A") ])%list.

(** The output of the record is there already. *)
Definition collision : filesystem :=
  (directories
   ++ [ (["blender"; "A_Depth.jpg"], File "earlier depth of A");
        (["tmp"; "Depth"; "Image0001.png"], File "depth of A") ])%list.

(** A render host that wrote the pass [Depth] only, and the world
    before the first record. *)
Definition render_depth_only : Exc blender.world unit :=
  fun w => (Returned tt,
            {| blender.files := depth_only;
               blender.the_scene := w.(blender.the_scene) |}).

Definition first_world : blender.world :=
  {| blender.files := directories; blender.the_scene := scene0 |}.

End samples.

(* ================================================================== *)
(** ** Sample runs of the driver *)

Module scenarios.

(** A scene whose view layer has the pass [Depth] and not [Normal]. *)
Definition depth_scene : scene :=
  {| scene_camera := None;
     render := samples.stale_scene.(render);
     tree := samples.stale_scene.(tree);
     view_layer_passes := ["Image"; "Alpha"; "Depth"];
     properties := [] |}.

Definition depth_world : blender.world :=
  {| blender.files := samples.directories; blender.the_scene := depth_scene |}.

(** A scene with the origin of the projection on the equator. *)
Definition equator_scene : scene :=
  {| scene_camera := None;
     render := samples.stale_scene.(render);
     tree := samples.stale_scene.(tree);
     view_layer_passes := ["Image"; "Alpha"; "Depth"; "Normal"; "DiffCol"];
     properties := [("lat", 0%R); ("lon", 0%R)] |}.

Definition equator_world : blender.world :=
  {| blender.files := samples.directories; blender.the_scene := equator_scene |}.

(** A dataset of one row, a quarter turn east of the origin, on the
    equator. *)
Definition quarter_turn : blender.row := ("A", 90%R, 0%R, 10%R, 0%R).

Definition one_row : Path -> Exc blender.world (list blender.row) :=
  fun _ => ret [quarter_turn].

(** A render host that wrote both passes of the record. *)
Definition render_both : Exc blender.world unit :=
  fun w => (Returned tt,
            {| blender.files := samples.rendered;
               blender.the_scene := w.(blender.the_scene) |}).

End scenarios.

(* ================================================================== *)
(** * Properties *)

Unset Implicit Arguments.
Open Scope list_scope.

(** ** Lists and the monad *)

Lemma filter_none {A} (p : A -> bool) (xs : list A) :
  (forall x, In x xs -> p x = false) -> filter p xs = [].
Proof.
  induction xs as [| x xs IH]; intros H; [reflexivity |].
  cbn. rewrite (H x (or_introl eq_refl)). apply IH.
  intros y Hy. apply H. right. exact Hy.
Qed.

Lemma filter_all {A} (p : A -> bool) (xs : list A) :
  (forall x, In x xs -> p x = true) -> filter p xs = xs.
Proof.
  induction xs as [| x xs IH]; intros H; [reflexivity |].
  cbn. rewrite (H x (or_introl eq_refl)). f_equal. apply IH.
  intros y Hy. apply H. right. exact Hy.
Qed.

Lemma filter_twice {A} (p q : A -> bool) (xs : list A) :
  filter p (filter q xs) = filter (fun x => q x && p x) xs.
Proof.
  induction xs as [| x xs IH]; [reflexivity |].
  cbn. destruct (q x); cbn; [destruct (p x) |]; rewrite ?IH; reflexivity.
Qed.

Lemma map_id_on {A} (f : A -> A) (xs : list A) :
  (forall x, In x xs -> f x = x) -> map f xs = xs.
Proof.
  induction xs as [| x xs IH]; intros H; [reflexivity |].
  cbn. rewrite (H x (or_introl eq_refl)). f_equal. apply IH.
  intros y Hy. apply H. right. exact Hy.
Qed.

Lemma bind_returned {St A B} (m : Exc St A) (k : A -> Exc St B)
      (s s' : St) (a : A) :
  m s = (Returned a, s') -> bind m k s = k a s'.
Proof. intros H. unfold bind. rewrite H. reflexivity. Qed.

Lemma bind_raised {St A B} (m : Exc St A) (k : A -> Exc St B)
      (s s' : St) (e : exn) :
  m s = (Raised e, s') -> bind m k s = (Raised e, s').
Proof. intros H. unfold bind. rewrite H. reflexivity. Qed.

Lemma setitem_middle {A} (done rest : list A) (x y : A) :
  setitem (done ++ y :: rest) (List.length done) x = Returned (done ++ x :: rest).
Proof.
  induction done as [| d done IH]; [reflexivity |].
  cbn. rewrite IH. reflexivity.
Qed.

Lemma getitem_middle {A} (done rest : list A) (x : A) :
  getitem (done ++ x :: rest) (List.length done) = Returned x.
Proof.
  unfold getitem. rewrite nth_error_app2 by lia.
  rewrite Nat.sub_diag. reflexivity.
Qed.

Lemma for_each_app {St A} (xs ys : list A) (body : A -> Exc St unit) (s : St) :
  for_each (xs ++ ys) body s =
  bind (for_each xs body) (fun _ => for_each ys body) s.
Proof.
  revert s. induction xs as [| x xs IH]; intros s.
  - reflexivity.
  - cbn [app for_each]. unfold bind.
    destruct (body x s) as [[e | []] s']; [reflexivity |].
    rewrite IH. reflexivity.
Qed.

(** ** Arithmetic of the projection *)

Section ProjectionAndPose.

Import math TransverseMercator pose.
Open Scope R_scope.

Lemma radians_90 : radians 90 = PI / 2.
Proof. unfold radians. field. Qed.

Lemma radians_0 : radians 0 = 0.
Proof. unfold radians. field. Qed.


(** The product of a sine and a cosine lies in [[-1, 1]]. *)
Lemma sin_cos_bound (a b : R) : -1 <= sin a * cos b <= 1.
Proof.
pose proof (SIN_bound a) as [Hs1 Hs2].
pose proof (COS_bound b) as [Hc1 Hc2].
split; nra.
Qed.

Lemma sin_lt_1_inside (a : R) : Rabs a < PI / 2 -> -1 < sin a < 1.
Proof.
intros Ha. apply Rabs_def2 in Ha. destruct Ha as [Hlt Hgt].
split.
- replace (-1) with (sin (- (PI / 2))) by (rewrite sin_neg, sin_PI2; lra).
  apply sin_increasing_1; lra.
- rewrite <- sin_PI2. apply sin_increasing_1; lra.
Qed.

Lemma B_inside (a b : R) : Rabs a < PI / 2 -> -1 < sin a * cos b < 1.
Proof.
intros Ha. destruct (sin_lt_1_inside a Ha) as [H1 H2].
pose proof (COS_bound b) as [Hc1 Hc2].
assert (Hs : Rabs (sin a) < 1) by (apply Rabs_def1; lra).
assert (Hc : Rabs (cos b) <= 1) by (apply Rabs_le; lra).
pose proof (Rabs_pos (sin a)). pose proof (Rabs_pos (cos b)).
assert (Hp : Rabs (sin a * cos b) < 1) by (rewrite Rabs_mult; nra).
apply Rabs_def2 in Hp. lra.
Qed.

Lemma truediv_ok (a b : R) : b <> 0 -> truediv a b = Returned (a / b).
Proof. intros Hb. unfold truediv. destruct (Req_dec_T b 0); [contradiction | reflexivity]. Qed.

Lemma truediv_zero (a : R) : truediv a 0 = Raised ZeroDivisionError.
Proof. unfold truediv. destruct (Req_dec_T 0 0); [reflexivity | contradiction]. Qed.

Lemma log_ok (x : R) : 0 < x -> log x = Returned (ln x).
Proof. intros Hx. unfold log. destruct (Rle_dec x 0); [lra | reflexivity]. Qed.


Lemma ratio_pos (B : R) : -1 < B < 1 -> 0 < (1 + B) / (1 - B).
Proof. intros [H1 H2]. apply Rdiv_lt_0_compat; lra. Qed.

(** ** The projection ([TransverseMercator.from_geographic]) *)

Lemma from_geographic_formula (self : TransverseMercator.t) (lat lon : R) :
let dlon := radians lon - self.(TransverseMercator.lon) in
let B := sin dlon * cos (radians lat) in
Rabs dlon < PI / 2 ->
cos dlon <> 0 ->
from_geographic self lat lon =
  Returned (0.5 * self.(scale) * 6378137 * ln ((1 + B) / (1 - B)),
            self.(scale) * 6378137
            * (atan (tan (radians lat) / cos dlon) - self.(TransverseMercator.lat))).
Proof.
intros dlon B Hdlon Hcos.
assert (HB : -1 < B < 1) by (apply B_inside; exact Hdlon).
unfold from_geographic. fold dlon. fold B.
rewrite truediv_ok by lra. cbn [bind_result].
rewrite log_ok by (apply ratio_pos; exact HB). cbn [bind_result].
rewrite truediv_ok by exact Hcos. cbn [bind_result].
unfold radius. reflexivity.
Qed.

(** At the tangent point the longitude offset is zero, [B] is zero and the
  arc tangent undoes the tangent of the latitude. *)
Lemma from_geographic_tangent_point (self : TransverseMercator.t) (lat lon : R) :
radians lat = self.(TransverseMercator.lat) ->
radians lon = self.(TransverseMercator.lon) ->
-90 < lat < 90 ->
from_geographic self lat lon = Returned (0, 0).
Proof.
intros Hlat Hlon Hrange.
assert (Hd : radians lon - self.(TransverseMercator.lon) = 0) by (rewrite Hlon; ring).
rewrite from_geographic_formula.
- rewrite Hd, sin_0, cos_0, Rmult_0_l.
  replace ((1 + 0) / (1 - 0)) with 1 by field.
  rewrite ln_1.
  replace (tan (radians lat) / 1) with (tan (radians lat)) by field.
  rewrite atan_tan.
  + rewrite Hlat. f_equal. f_equal; ring.
  + unfold radians. pose proof PI_RGT_0. split; nra.
- rewrite Hd, Rabs_R0. pose proof PI_RGT_0. lra.
- rewrite Hd, cos_0. lra.
Qed.

Lemma from_geographic_origin (lat0 lon0 s : R) :
-90 < lat0 < 90 ->
from_geographic (init lat0 lon0 s) lat0 lon0 = Returned (0, 0).
Proof.
intros Hrange. apply from_geographic_tangent_point; [reflexivity | reflexivity | exact Hrange].
Qed.

(** On the central meridian the longitude offset is zero: [x] is zero and
    [y] is what the arc tangent leaves of the tangent of the latitude. *)
Lemma from_geographic_on_meridian (lat0 lon0 s lat : R) :
  from_geographic (init lat0 lon0 s) lat lon0 =
    Returned (0, s * 6378137 * (atan (tan (radians lat)) - radians lat0)).
Proof.
  assert (Hd : radians lon0 - TransverseMercator.lon (init lat0 lon0 s) = 0)
    by (cbn [init TransverseMercator.lon]; ring).
  rewrite from_geographic_formula.
  - rewrite Hd, sin_0, cos_0, Rmult_0_l.
    replace ((1 + 0) / (1 - 0)) with 1 by field.
    rewrite ln_1.
    replace (tan (radians lat) / 1) with (tan (radians lat)) by field.
    cbn [init TransverseMercator.lat scale]. f_equal. f_equal. ring.
  - rewrite Hd, Rabs_R0. pose proof PI_RGT_0. lra.
  - rewrite Hd, cos_0. lra.
Qed.





(** ** The singularity of the projection *)

Lemma from_geographic_0_90 :
from_geographic (init 0 0 1) 0 90 = Raised ZeroDivisionError.
Proof.
unfold from_geographic. cbn [init TransverseMercator.lon].
rewrite radians_0, radians_90, Rminus_0_r, sin_PI2, cos_0.
replace (1 - 1 * 1) with 0 by ring.
rewrite truediv_zero. reflexivity.
Qed.




(** ** The pose ([mapillary_to_euler], [place_camera]) *)

Lemma mapillary_to_euler_eq (b : R) :
mapillary_to_euler b = [PI / 2; 0; - radians b].
Proof.
unfold mapillary_to_euler, deg2rad. cbn [map].
rewrite radians_90, radians_0. do 3 f_equal. unfold radians. ring.
Qed.

(** C6. [mapillary_to_euler b] is [(pi/2, 0, - radians b)]; at the
  bearings 0 and 90 it is [(pi/2, 0, 0)] and [(pi/2, 0, - pi/2)]. *)
Theorem mapillary_to_euler_spec :
(forall b : R, mapillary_to_euler b = [PI / 2; 0; - radians b])
/\ mapillary_to_euler 0 = [PI / 2; 0; 0]
/\ mapillary_to_euler 90 = [PI / 2; 0; - (PI / 2)].
Proof.
split; [exact mapillary_to_euler_eq |]. split.
- rewrite mapillary_to_euler_eq, radians_0, Ropp_0. reflexivity.
- rewrite mapillary_to_euler_eq, radians_90. reflexivity.
Qed.




Import blender samples.

(** [place_camera] on a scene that has a camera, with every attribute of
    the result written out. *)
Lemma place_camera_eq (sc : scene) (cam : camera) (x y z angle offset : R) :
  scene_camera sc = Some cam ->
  place_camera (x, y, z) angle offset sc =
    (Returned tt,
     {| scene_camera :=
          Some {| location := (x, y, z + offset);
                  rotation_euler := [PI / 2; 0; - radians angle];
                  camera_type := cam.(camera_type);
                  panorama_type := cam.(panorama_type);
                  panorama_resolution := cam.(panorama_resolution) |};
        render := sc.(render);
        tree := sc.(tree);
        view_layer_passes := sc.(view_layer_passes);
        properties := sc.(properties) |}).
Proof.
  intros Hcam. unfold place_camera. rewrite mapillary_to_euler_eq.
  unfold bind, camera_setattr. rewrite Hcam. cbn. reflexivity.
Qed.

(** C5. On a scene that has a camera, [place_camera] with the default
    offset leaves the camera at [(x, y, z + 0.3)] with the angles
    [(pi/2, 0, - radians bearing)]; both attributes are assigned and
    nothing else changes. For a record of altitude 10 and bearing 0 at
    the scene point [(0, 0)] of the origin of the projection, the pose is
    [(0, 0, 10.3)] and [(pi/2, 0, 0)]; so it is when the point comes from
    [from_geographic], for the origin at 45 degrees of latitude and of
    longitude and a record there. *)
Theorem place_camera_pose (sc : scene) (cam : camera) (x y z angle : R) :
  scene_camera sc = Some cam ->
  let placed (position : R * R * R) (orientation : list R) : scene :=
    {| scene_camera :=
         Some {| location := position;
                 rotation_euler := orientation;
                 camera_type := cam.(camera_type);
                 panorama_type := cam.(panorama_type);
                 panorama_resolution := cam.(panorama_resolution) |};
       render := sc.(render);
       tree := sc.(tree);
       view_layer_passes := sc.(view_layer_passes);
       properties := sc.(properties) |} in
  place_camera (x, y, z) angle default_offset_altitude sc =
    (Returned tt, placed (x, y, z + 0.3) [PI / 2; 0; - radians angle])
  /\ place_camera (0, 0, 10) 0 default_offset_altitude sc =
       (Returned tt, placed (0, 0, 10.3) [PI / 2; 0; 0])
  /\ (xy <- lift (from_geographic
                    (init 45 45 TransverseMercator.default_scale) 45 45) ;;
      let '(x0, y0) := xy in
      place_camera (x0, y0, 10) 0 default_offset_altitude)%py sc =
       (Returned tt, placed (0, 0, 10.3) [PI / 2; 0; 0]).
Proof.
  intros Hcam placed.
  assert (Horigin :
    place_camera (0, 0, 10) 0 default_offset_altitude sc =
    (Returned tt, placed (0, 0, 10.3) [PI / 2; 0; 0])).
  { rewrite (place_camera_eq sc cam) by exact Hcam.
    unfold placed, default_offset_altitude.
    rewrite radians_0, Ropp_0. replace (10 + 0.3) with 10.3 by lra. reflexivity. }
  split; [| split].
  - rewrite (place_camera_eq sc cam) by exact Hcam. reflexivity.
  - exact Horigin.
  - unfold bind at 1, lift. rewrite from_geographic_origin by lra. exact Horigin.
Qed.

Lemma place_camera_pose_witness :
  option_map (fun c => (location c, rotation_euler c))
    (scene_camera (snd (place_camera (1, 2, 10) 90 default_offset_altitude scene0)))
  = Some ((1, 2, 10 + 0.3), [PI / 2; 0; - radians 90]).
Proof.
  destruct (place_camera_pose scene0 _ 1 2 10 90 eq_refl) as [H _].
  rewrite H. reflexivity.
Defined.

End ProjectionAndPose.

(** ** [toNumpy] *)

Section ToNumpyFacts.

Import remap.

Context {elt f32 : Type} (to_float32 : elt -> f32).

Lemma toNumpy_call_rank3 (imgs : ndarray elt) (c h w : nat) :
  shape imgs = [c; h; w] ->
  toNumpy_call to_float32 imgs =
    Returned (astype_float32 to_float32 (permute imgs [1; 2; 0])).
Proof. intros Hs. unfold toNumpy_call. rewrite Hs. reflexivity. Qed.

Lemma toNumpy_call_rank4 (imgs : ndarray elt) (n c h w : nat) :
  shape imgs = [n; c; h; w] ->
  toNumpy_call to_float32 imgs =
    Returned (astype_float32 to_float32 (permute imgs [0; 2; 3; 1])).
Proof. intros Hs. unfold toNumpy_call. rewrite Hs. reflexivity. Qed.

(** C10. [toNumpy.__call__] raises on a tensor whose rank is neither 3
    nor 4, since [imgs_norm] is then read without having been bound. On
    a tensor of shape [(C, H, W)] it returns the [float32] array of
    shape [(H, W, C)] that has at [(i, j, k)] the element at
    [(k, i, j)]; on one of shape [(N, C, H, W)] the array of shape
    [(N, H, W, C)] that has at [(b, i, j, k)] the element at
    [(b, k, i, j)]. *)
Theorem toNumpy_call_spec (imgs : ndarray elt) :
  (List.length (shape imgs) <> 3 -> List.length (shape imgs) <> 4 ->
   toNumpy_call to_float32 imgs = Raised UnboundLocalError)
  /\ (forall c h w, shape imgs = [c; h; w] ->
      exists arr : ndarray f32,
        toNumpy_call to_float32 imgs = Returned arr
        /\ shape arr = [h; w; c]
        /\ forall i j k,
             at_index arr [i; j; k] = to_float32 (at_index imgs [k; i; j]))
  /\ (forall n c h w, shape imgs = [n; c; h; w] ->
      exists arr : ndarray f32,
        toNumpy_call to_float32 imgs = Returned arr
        /\ shape arr = [n; h; w; c]
        /\ forall b i j k,
             at_index arr [b; i; j; k] = to_float32 (at_index imgs [b; k; i; j])).
Proof.
  split; [| split].
  - intros H3 H4. unfold toNumpy_call.
    destruct (Nat.eqb_spec (List.length (shape imgs)) 3) as [E | _]; [contradiction |].
    destruct (Nat.eqb_spec (List.length (shape imgs)) 4) as [E | _]; [contradiction |].
    reflexivity.
  - intros c h w Hs. eexists. split; [apply (toNumpy_call_rank3 imgs c h w Hs) |].
    split.
    + cbn. rewrite Hs. reflexivity.
    + intros i j k. cbn. rewrite Hs. reflexivity.
  - intros n c h w Hs. eexists. split; [apply (toNumpy_call_rank4 imgs n c h w Hs) |].
    split.
    + cbn. rewrite Hs. reflexivity.
    + intros b i j k. cbn. rewrite Hs. reflexivity.
Qed.

End ToNumpyFacts.

Lemma toNumpy_call_spec_witness :
  remap.toNumpy_call Z.of_nat
    {| remap.shape := [5]; remap.at_index := fun idx => hd 0 idx |}
  = Raised UnboundLocalError
  /\ exists arr,
       remap.toNumpy_call Z.of_nat
         {| remap.shape := [3; 2; 2]; remap.at_index := fun idx => hd 0 idx |}
       = Returned arr
       /\ remap.shape arr = [2; 2; 3]
       /\ remap.at_index arr [0; 1; 2] = 2%Z.
Proof.
  split.
  - apply (proj1 (toNumpy_call_spec Z.of_nat
                    {| remap.shape := [5]; remap.at_index := fun idx => hd 0 idx |}));
      cbn; lia.
  - destruct (proj1 (proj2 (toNumpy_call_spec Z.of_nat
                    {| remap.shape := [3; 2; 2];
                       remap.at_index := fun idx => hd 0 idx |}))
                3 2 2 eq_refl) as [arr [Hr [Hs Hat]]].
    exists arr. split; [exact Hr |]. split; [exact Hs |].
    rewrite Hat. reflexivity.
Defined.

(** ** The render graph ([create_nodes]) *)

Section RenderGraphFacts.

Import blender.

Lemma set_tree_set_tree (t1 t2 : node_tree) (sc : scene) :
  set_tree t2 (set_tree t1 sc) = set_tree t2 sc.
Proof. reflexivity. Qed.

Lemma remove_loop (ns : list node) (sc : scene) :
  for_each ns (fun node => nodes_remove node.(node_id)) sc =
  (Returned tt,
   match ns with
   | [] => sc
   | _ :: _ => set_tree (without (map node_id ns) sc.(tree)) sc
   end).
Proof.
  revert sc. induction ns as [| n ns IH]; intros sc; [reflexivity |].
  cbn [for_each]. unfold bind at 1. unfold nodes_remove at 1.
  rewrite IH. f_equal.
  destruct sc as [cam rend t passes props]. cbn [tree set_tree].
  destruct ns as [| n' ns'].
  - unfold set_tree, without. cbn. f_equal. f_equal.
    + apply filter_ext. intros a. rewrite orb_false_r. reflexivity.
    + apply filter_ext. intros a. rewrite !orb_false_r. reflexivity.
  - unfold set_tree, without. cbn [scene_camera render tree view_layer_passes properties nodes links next_id].
    f_equal. f_equal.
    + rewrite filter_twice. apply filter_ext. intros a.
      cbn [map existsb]. rewrite !negb_orb. reflexivity.
    + rewrite filter_twice. apply filter_ext. intros a.
      cbn [map existsb]. rewrite !negb_orb.
      destruct (Nat.eqb (from_node a) (node_id n)), (Nat.eqb (to_node a) (node_id n)),
        (Nat.eqb (from_node a) (node_id n')), (Nat.eqb (to_node a) (node_id n'));
        cbn; try reflexivity;
        destruct (existsb (Nat.eqb (from_node a)) (map node_id ns'));
        destruct (existsb (Nat.eqb (to_node a)) (map node_id ns')); reflexivity.
Qed.

Lemma existsb_eqb_In (x : nat) (xs : list nat) :
  In x xs -> existsb (Nat.eqb x) xs = true.
Proof.
  intros H. apply existsb_exists. exists x. split; [exact H | apply Nat.eqb_refl].
Qed.

Lemma without_all (t : node_tree) :
  links_closed t ->
  without (map node_id t.(nodes)) t =
  {| nodes := []; links := []; next_id := t.(next_id) |}.
Proof.
  intros Hclosed. unfold without. f_equal.
  - apply filter_none. intros n Hn.
    rewrite existsb_eqb_In; [reflexivity | apply in_map; exact Hn].
  - apply filter_none. intros l Hl.
    destruct (Hclosed l Hl) as [Hfrom _].
    rewrite (existsb_eqb_In _ _ Hfrom). reflexivity.
Qed.

Lemma set_tree_self (sc : scene) : set_tree sc.(tree) sc = sc.
Proof. destruct sc. reflexivity. Qed.

Lemma nodes_new_eq (type : string) (t : node_tree) (sc : scene) :
  nodes_new type (set_tree t sc) =
  (Returned t.(next_id),
   set_tree {| nodes := t.(nodes)
                        ++ [{| node_id := t.(next_id); bl_idname := type;
                               node_name := type; node_location := (0, 0)%Z;
                               base_path := None |}];
               links := t.(links); next_id := S t.(next_id) |} sc).
Proof. reflexivity. Qed.

(** Assigning to an attribute of the node created last. *)
Lemma node_setattr_last (id : nat) (f : node -> node) (ns : list node)
      (n : node) (ls : list link) (nxt : nat) (sc : scene) :
  n.(node_id) = id ->
  (forall m, In m ns -> m.(node_id) <> id) ->
  node_setattr id f (set_tree {| nodes := ns ++ [n]; links := ls; next_id := nxt |} sc) =
  (Returned tt, set_tree {| nodes := ns ++ [f n]; links := ls; next_id := nxt |} sc).
Proof.
  intros Hid Hns. unfold node_setattr. rewrite set_tree_set_tree.
  cbn [tree set_tree nodes links next_id]. do 3 f_equal.
  rewrite map_app. cbn. rewrite Hid, Nat.eqb_refl. f_equal.
  apply map_id_on. intros m Hm.
  destruct (Nat.eqb_spec (node_id m) id) as [E | _]; [| reflexivity].
  exfalso. exact (Hns m Hm E).
Qed.

Lemma outputs_getitem_ok (id : nat) (key : string) (t : node_tree) (sc : scene) :
  In key sc.(view_layer_passes) ->
  outputs_getitem id key (set_tree t sc) = (Returned (id, key), set_tree t sc).
Proof.
  intros Hin. unfold outputs_getitem. cbn [view_layer_passes set_tree].
  replace (existsb (String.eqb key) (view_layer_passes sc)) with true; [reflexivity |].
  symmetry. apply existsb_exists. exists key. split; [exact Hin | apply String.eqb_refl].
Qed.

Lemma outputs_getitem_missing (id : nat) (key : string) (t : node_tree) (sc : scene) :
  ~ In key sc.(view_layer_passes) ->
  outputs_getitem id key (set_tree t sc) = (Raised (KeyError key), set_tree t sc).
Proof.
  intros Hin. unfold outputs_getitem. cbn [view_layer_passes set_tree].
  replace (existsb (String.eqb key) (view_layer_passes sc)) with false; [reflexivity |].
  symmetry. apply not_true_is_false. intros H. apply existsb_exists in H.
  destruct H as [k [Hk Heq]]. apply String.eqb_eq in Heq. subst k. exact (Hin Hk).
Qed.

(** Linking into an input of a node that no link reaches yet. *)
Lemma links_new_fresh (output : nat * string) (input : nat * nat)
      (ns : list node) (ls : list link) (nxt : nat) (sc : scene) :
  (forall l, In l ls -> l.(to_node) <> fst input) ->
  links_new output input (set_tree {| nodes := ns; links := ls; next_id := nxt |} sc) =
  (Returned tt,
   set_tree {| nodes := ns;
               links := ls ++ [{| from_node := fst output; from_socket := snd output;
                                  to_node := fst input; to_socket := snd input |}];
               next_id := nxt |} sc).
Proof.
  intros Hls. unfold links_new. rewrite set_tree_set_tree.
  cbn [tree set_tree nodes links next_id]. do 4 f_equal.
  apply filter_all. intros l Hl.
  destruct (Nat.eqb_spec (to_node l) (fst input)) as [E | _]; [| reflexivity].
  exfalso. exact (Hls l Hl E).
Qed.

Variable os : platform.

(** One turn of the second loop of [create_nodes]. *)
Lemma create_node_turn (tmp_dir : Path) (src : nat) (render_pass_name : string)
      (done rest : list Path) (ns : list node) (ls : list link) (sc : scene) :
  let i := List.length done in
  (forall n, In n ns -> n.(node_id) < src + 1 + i) ->
  (forall l, In l ls -> l.(to_node) < src + 1 + i) ->
  In render_pass_name sc.(view_layer_passes) ->
  create_node os tmp_dir src i render_pass_name (done ++ [] :: rest)
    (set_tree {| nodes := ns; links := ls; next_id := src + 1 + i |} sc) =
  (Returned (done ++ joinpath os tmp_dir render_pass_name :: rest),
   set_tree {| nodes := ns ++ [sink_node os tmp_dir src i render_pass_name];
               links := ls ++ [sink_link src i render_pass_name];
               next_id := src + 1 + S i |} sc).
Proof.
  intros i Hns Hls Hpass.
  assert (Hfresh : forall m, In m ns -> node_id m <> src + 1 + i).
  { intros m Hm E. specialize (Hns m Hm). lia. }
  unfold create_node.
  erewrite bind_returned by apply nodes_new_eq. cbn [nodes links next_id].
  erewrite bind_returned by (apply node_setattr_last; [reflexivity | exact Hfresh]).
  erewrite bind_returned by (apply node_setattr_last; [reflexivity | exact Hfresh]).
  unfold lift at 1. erewrite bind_returned
    by (unfold i; rewrite setitem_middle; reflexivity).
  unfold lift at 1. erewrite bind_returned
    by (unfold i; rewrite getitem_middle; reflexivity).
  erewrite bind_returned by (apply node_setattr_last; [reflexivity | exact Hfresh]).
  erewrite bind_returned by (apply outputs_getitem_ok; exact Hpass).
  erewrite bind_returned by reflexivity.
  erewrite bind_returned.
  2:{ apply links_new_fresh. cbn [fst]. intros l Hl E.
      specialize (Hls l Hl). lia. }
  unfold ret. replace (src + 1 + S i) with (S (src + 1 + i)) by lia.
  reflexivity.
Qed.

Lemma imap_from_app {A B} (f : nat -> A -> B) (xs ys : list A) (i : nat) :
  imap_from i f (xs ++ ys) = imap_from i f xs ++ imap_from (i + List.length xs) f ys.
Proof.
  revert i. induction xs as [| x xs IH]; intros i; cbn.
  - rewrite Nat.add_0_r. reflexivity.
  - rewrite IH. do 3 f_equal. lia.
Qed.

(** The second loop of [create_nodes], entered with [done] filled in. *)
Lemma create_node_loop (tmp_dir : Path) (src : nat) (names : list string) :
  forall (done : list Path) (ns : list node) (ls : list link) (sc : scene),
  let i := List.length done in
  (forall n, In n ns -> n.(node_id) < src + 1 + i) ->
  (forall l, In l ls -> l.(to_node) < src + 1 + i) ->
  (forall nm, In nm names -> In nm sc.(view_layer_passes)) ->
  for_enumerate_var i names (done ++ repeat [] (List.length names))
    (create_node os tmp_dir src)
    (set_tree {| nodes := ns; links := ls; next_id := src + 1 + i |} sc) =
  (Returned (done ++ map (joinpath os tmp_dir) names),
   set_tree {| nodes := ns ++ imap_from i (sink_node os tmp_dir src) names;
               links := ls ++ imap_from i (sink_link src) names;
               next_id := src + 1 + i + List.length names |} sc).
Proof.
  induction names as [| nm names IH]; intros done ns ls sc i Hns Hls Hpass;
    subst i.
  - cbn. unfold ret. rewrite !app_nil_r, Nat.add_0_r. reflexivity.
  - cbn [for_enumerate_var List.length repeat map imap_from].
    erewrite bind_returned
      by (apply create_node_turn; [exact Hns | exact Hls | apply Hpass; left; reflexivity]).
    specialize (IH (done ++ [joinpath os tmp_dir nm])
                   (ns ++ [sink_node os tmp_dir src (List.length done) nm])
                   (ls ++ [sink_link src (List.length done) nm]) sc).
    cbv zeta in IH.
    rewrite length_app in IH. cbn [List.length] in IH.
    replace (List.length done + 1) with (S (List.length done)) in IH by lia.
    rewrite <- !app_assoc in IH. cbn [app] in IH.
    rewrite IH.
    + do 3 f_equal. lia.
    + intros n Hn. apply in_app_or in Hn. destruct Hn as [Hn | [<- | []]].
      * specialize (Hns n Hn). lia.
      * cbn. lia.
    + intros l Hl. apply in_app_or in Hl. destruct Hl as [Hl | [<- | []]].
      * specialize (Hls l Hl). lia.
      * cbn. lia.
    + intros nm' Hnm'. apply Hpass. right. exact Hnm'.
Qed.


Lemma create_nodes_eq (tmp_dir : Path) (render_pass_names : list string)
      (sc : scene) :
  links_closed sc.(tree) ->
  (forall nm, In nm render_pass_names -> In nm sc.(view_layer_passes)) ->
  create_nodes os tmp_dir render_pass_names sc =
  (Returned (map (joinpath os tmp_dir) render_pass_names),
   set_tree (built_tree os tmp_dir sc.(tree).(next_id) render_pass_names) sc).
Proof.
  intros Hclosed Hpass. unfold create_nodes.
  erewrite bind_returned by reflexivity.
  erewrite bind_returned by apply remove_loop.
  assert (Hcleared :
    match sc.(tree).(nodes) with
    | [] => sc
    | _ :: _ => set_tree (without (map node_id sc.(tree).(nodes)) sc.(tree)) sc
    end = set_tree {| nodes := []; links := []; next_id := sc.(tree).(next_id) |} sc).
  { pose proof (without_all sc.(tree) Hclosed) as Hall.
    destruct (nodes (tree sc)) as [| n ns] eqn:Hnodes.
    - rewrite <- (set_tree_self sc) at 1. f_equal.
      cbn in Hall. rewrite <- Hall. unfold without. rewrite Hnodes. cbn.
      destruct (tree sc) as [ns0 ls0 nxt0]. cbn in *. subst ns0. f_equal.
      symmetry. apply filter_all. intros l Hl. reflexivity.
    - rewrite Hall. reflexivity. }
  rewrite Hcleared.
  erewrite bind_returned by apply nodes_new_eq. cbn [nodes links next_id app].
  erewrite bind_returned
    by (apply (node_setattr_last _ _ []); [reflexivity | intros m []]).
  erewrite bind_returned
    by (apply (node_setattr_last _ _ []); [reflexivity | intros m []]).
  cbn [app].
  pose proof (create_node_loop tmp_dir sc.(tree).(next_id) render_pass_names []
                [source_node sc.(tree).(next_id)] [] sc) as Hloop.
  cbv zeta in Hloop. cbn [List.length app] in Hloop.
  rewrite Nat.add_0_r in Hloop.
  replace (S (next_id (tree sc))) with (next_id (tree sc) + 1) by lia.
  refine (Hloop _ _ Hpass).
  - intros n [<- | []]. cbn. lia.
  - intros l [].
Qed.

(** C7, amended. When every link of the tree joins nodes of the tree and
    every requested pass is an output of the render-layers node,
    [create_nodes] leaves a tree made of one render-layers node and, for
    each requested pass in order, one file-output node whose base path
    is [tmp_dir / name], fed by the output of that name; no earlier node
    or link remains. It returns the paths [tmp_dir / name] in the order
    of the names. The file system is left as it was: no directory is
    created or emptied. *)
Theorem create_nodes_spec (tmp_dir : Path) (render_pass_names : list string)
        (sc : scene) (fs : filesystem) :
  links_closed sc.(tree) ->
  (forall nm, In nm render_pass_names -> In nm sc.(view_layer_passes)) ->
  in_scene (create_nodes os tmp_dir render_pass_names)
           {| files := fs; the_scene := sc |} =
  (Returned (map (joinpath os tmp_dir) render_pass_names),
   {| files := fs;
      the_scene :=
        set_tree (built_tree os tmp_dir sc.(tree).(next_id) render_pass_names) sc |}).
Proof.
  intros Hclosed Hpass. unfold in_scene, zoom. cbn [the_scene files].
  rewrite create_nodes_eq by assumption. reflexivity.
Qed.

End RenderGraphFacts.

Lemma create_nodes_spec_witness :
  fst (blender.in_scene (blender.create_nodes Posix ["tmp"] ["Depth"; "Normal"])
                        samples.bare_world)
  = Returned [["tmp"; "Depth"]; ["tmp"; "Normal"]].
Proof.
  unfold samples.bare_world.
  rewrite (create_nodes_spec Posix ["tmp"] ["Depth"; "Normal"] samples.stale_scene).
  - reflexivity.
  - intros l [<- | []]. cbn. split; [left | right; left]; reflexivity.
  - intros nm [<- | [<- | []]]; cbn; tauto.
Defined.

(** C7, as the specification states it, fails on a file system that has
    only the staging root: the two paths that [create_nodes] returns are
    not directories afterwards. *)
Lemma create_nodes_makes_no_directory :
  exists w',
    blender.in_scene (blender.create_nodes Posix ["tmp"] ["Depth"; "Normal"])
                     samples.bare_world
    = (Returned [["tmp"; "Depth"]; ["tmp"; "Normal"]], w')
    /\ is_dir (blender.files w') ["tmp"; "Depth"] = false
    /\ is_dir (blender.files w') ["tmp"; "Normal"] = false.
Proof.
  exists {| blender.files := [(["tmp"], Directory)];
            blender.the_scene :=
              set_tree (blender.built_tree Posix ["tmp"] 2 ["Depth"; "Normal"])
                       samples.stale_scene |}.
  split; [| split; reflexivity].
  unfold samples.bare_world, blender.in_scene, zoom.
  cbn [blender.the_scene blender.files].
  rewrite create_nodes_eq; [reflexivity | |].
  - intros l [<- | []]. cbn. split; [left | right; left]; reflexivity.
  - intros nm [<- | [<- | []]]; cbn; tauto.
Qed.

(** A pass that the render-layers node does not offer stops the loop with
    [KeyError]. *)
Example create_nodes_unknown_pass :
  fst (blender.create_nodes Posix ["tmp"] ["Depth"; "Mist"] samples.stale_scene)
  = Raised (KeyError "Mist").
Proof. vm_compute. reflexivity. Qed.

(** ** The file system *)

Section FileSystemFacts.

Lemma path_eqb_spec (p q : Path) : reflect (p = q) (path_eqb p q).
Proof.
  unfold path_eqb. destruct (path_eq_dec p q); constructor; assumption.
Qed.

Lemma path_eqb_refl (p : Path) : path_eqb p p = true.
Proof. destruct (path_eqb_spec p p); [reflexivity | contradiction]. Qed.

Lemma path_eqb_neq (p q : Path) : p <> q -> path_eqb p q = false.
Proof. intros H. destruct (path_eqb_spec p q); [contradiction | reflexivity]. Qed.

Lemma parent_snoc (p : Path) (nm : string) : parent (p ++ [nm]) = p.
Proof. apply removelast_last. Qed.

Lemma name_snoc (p : Path) (nm : string) : name (p ++ [nm]) = nm.
Proof. apply last_last. Qed.

Lemma is_child_parent (d p : Path) : is_child d p = true -> parent p = d /\ p <> [].
Proof.
  unfold is_child. destruct p as [| a p']; [discriminate |].
  intros H. destruct (path_eqb_spec (parent (a :: p')) d); [| discriminate].
  split; [assumption | discriminate].
Qed.

Lemma is_child_snoc (d p : Path) (nm : string) :
  is_child d (p ++ [nm]) = path_eqb p d.
Proof.
  unfold is_child. rewrite parent_snoc.
  destruct (p ++ [nm]) eqn:E; [| reflexivity].
  destruct p; discriminate.
Qed.

Lemma in_iterdir_parent (fs : filesystem) (d p : Path) :
  In p (iterdir fs d) -> parent p = d /\ p <> [].
Proof.
  unfold iterdir. intros H. apply filter_In in H. apply is_child_parent, H.
Qed.

Lemma in_glob_iterdir (fs : filesystem) (d p : Path) (pat : string) :
  In p (glob fs d pat) -> In p (iterdir fs d).
Proof.
  unfold glob. destruct (is_dir fs d); [| intros []].
  intros H. apply filter_In in H. apply H.
Qed.

(** *** Moving one file *)

Variables (src dst : Path).
Hypothesis Hneq : src <> dst.

Lemma lookup_move_file_dst (fs : filesystem) :
  lookup (move_file fs src dst) dst = lookup fs src.
Proof.
  unfold move_file, remove.
  induction fs as [| [q n] fs IH]; [reflexivity |].
  cbn [filter fst snd lookup].
  destruct (path_eqb_spec q dst) as [-> | Hqd]; cbn [negb].
  - rewrite IH. rewrite (path_eqb_neq dst src) by congruence. reflexivity.
  - cbn [map fst snd].
    destruct (path_eqb_spec q src) as [-> | Hqs]; cbn [lookup].
    + rewrite path_eqb_refl. reflexivity.
    + rewrite (path_eqb_neq q dst) by assumption. exact IH.
Qed.

Lemma lookup_move_file_src (fs : filesystem) :
  lookup (move_file fs src dst) src = None.
Proof.
  unfold move_file, remove.
  induction fs as [| [q n] fs IH]; [reflexivity |].
  cbn [filter fst snd].
  destruct (path_eqb_spec q dst) as [-> | Hqd]; cbn [negb]; [exact IH |].
  cbn [map fst snd].
  destruct (path_eqb_spec q src) as [-> | Hqs]; cbn [lookup].
  - rewrite (path_eqb_neq dst src) by congruence. exact IH.
  - rewrite (path_eqb_neq q src) by assumption. exact IH.
Qed.

Lemma lookup_move_file_other (fs : filesystem) (p : Path) :
  p <> src -> p <> dst ->
  lookup (move_file fs src dst) p = lookup fs p.
Proof.
  intros Hps Hpd. unfold move_file, remove.
  induction fs as [| [q n] fs IH]; [reflexivity |].
  cbn [filter fst snd lookup].
  destruct (path_eqb_spec q dst) as [-> | Hqd]; cbn [negb].
  - rewrite (path_eqb_neq dst p) by congruence. exact IH.
  - cbn [map fst snd].
    destruct (path_eqb_spec q src) as [-> | Hqs]; cbn [lookup].
    + rewrite (path_eqb_neq dst p), (path_eqb_neq src p) by congruence. exact IH.
    + rewrite IH. reflexivity.
Qed.

Lemma is_dir_move_file_other (fs : filesystem) (p : Path) :
  p <> src -> p <> dst ->
  is_dir (move_file fs src dst) p = is_dir fs p.
Proof.
  intros Hps Hpd. unfold is_dir. rewrite lookup_move_file_other by assumption.
  reflexivity.
Qed.

(** A directory that is not the one of the target loses the moved file
    and keeps the rest. *)
Lemma iterdir_move_file (fs : filesystem) (d : Path) :
  is_child d dst = false ->
  iterdir (move_file fs src dst) d =
  filter (fun p => negb (path_eqb p src)) (iterdir fs d).
Proof.
  intros Hd. unfold iterdir, move_file, remove.
  induction fs as [| [q n] fs IH]; [reflexivity |].
  cbn [filter fst snd map].
  destruct (path_eqb_spec q dst) as [-> | Hqd]; cbn [negb].
  - rewrite IH. rewrite Hd. reflexivity.
  - cbn [map fst snd filter].
    destruct (path_eqb_spec q src) as [-> | Hqs]; cbn [fst].
    + rewrite Hd, IH.
      destruct (is_child d src); [| reflexivity].
      cbn [filter]. rewrite path_eqb_refl. reflexivity.
    + rewrite IH. destruct (is_child d q); [| reflexivity].
      cbn [filter]. rewrite (path_eqb_neq q src) by assumption. reflexivity.
Qed.

End FileSystemFacts.

Section RenameFacts.

Variable os : platform.

Lemma rename_file_free (fs : filesystem) (src dst : Path) (c : string) :
  lookup fs src = Some (File c) ->
  src <> dst ->
  is_dir fs (parent dst) = true ->
  lookup fs dst = None ->
  rename os src dst fs = (Returned tt, move_file fs src dst).
Proof.
  intros Hsrc Hneq Hdir Hdst. unfold rename.
  rewrite Hsrc, (path_eqb_neq _ _ Hneq), Hdir, Hdst. reflexivity.
Qed.

Lemma rename_raises_keeps (fs fs' : filesystem) (src dst : Path) (e : exn) :
  rename os src dst fs = (Raised e, fs') -> fs' = fs.
Proof.
  unfold rename.
  destruct (lookup fs src) as [n |]; [| intros H; injection H as _ <-; reflexivity].
  destruct (path_eqb src dst); [discriminate |].
  destruct (is_dir fs (parent dst)); cbn [negb];
    [| intros H; injection H as _ <-; reflexivity].
  destruct (lookup fs dst) as [m |], os, n; try destruct m;
    try destruct (is_prefix src dst); try destruct (iterdir fs dst);
    intros H; try discriminate H; injection H as _ <-; reflexivity.
Qed.

Lemma move_render_pass_empty (out d : Path) (id : string) (fs : filesystem) :
  glob fs d "*.*" = [] ->
  move_render_pass os out id d fs = (Raised IndexError, fs).
Proof.
  intros Hglob. unfold move_render_pass.
  erewrite bind_returned by reflexivity.
  rewrite Hglob. reflexivity.
Qed.

Lemma move_render_pass_first (out d f t : Path) (more : list Path)
      (id : string) (fs : filesystem) :
  glob fs d "*.*" = f :: more ->
  new_filepath os out id (stem d) = Returned t ->
  move_render_pass os out id d fs = rename os f t fs.
Proof.
  intros Hglob Ht. unfold move_render_pass.
  erewrite bind_returned by reflexivity.
  rewrite Hglob. erewrite bind_returned by reflexivity.
  assert (Hparent : parent f = d).
  { apply (in_iterdir_parent fs), (in_glob_iterdir fs d f "*.*").
    rewrite Hglob. left. reflexivity. }
  rewrite Hparent, Ht. erewrite bind_returned by reflexivity. reflexivity.
Qed.

Lemma move_render_pass_raises_keeps (out d : Path) (id : string)
      (fs fs' : filesystem) (e : exn) :
  move_render_pass os out id d fs = (Raised e, fs') -> fs' = fs.
Proof.
  unfold move_render_pass. erewrite bind_returned by reflexivity.
  unfold bind at 1, lift at 1.
  destruct (getitem (glob fs d "*.*") 0) as [e0 | f];
    [intros H; injection H as _ <-; reflexivity |].
  unfold bind at 1, lift at 1.
  destruct (new_filepath os out id (stem (parent f))) as [e0 | t];
    [intros H; injection H as _ <-; reflexivity |].
  apply rename_raises_keeps.
Qed.

(** The reconciliation stops at the first directory whose turn raises,
    with the files as the turns before it left them. *)
Lemma move_render_passes_stops (pre post : list Path) (d out : Path)
      (fs fs1 fs2 : filesystem) (e : exn) :
  move_render_passes os pre out fs = (Returned tt, fs1) ->
  move_render_pass os out (stem out) d fs1 = (Raised e, fs2) ->
  move_render_passes os (pre ++ d :: post) out fs = (Raised e, fs1).
Proof.
  intros Hpre Hd. unfold move_render_passes in *.
  rewrite for_each_app. erewrite bind_returned by exact Hpre.
  cbn [for_each]. erewrite bind_raised by exact Hd.
  rewrite (move_render_pass_raises_keeps _ _ _ _ _ _ Hd). reflexivity.
Qed.

Lemma move_render_passes_last (pre : list Path) (d out : Path)
      (fs fs1 fs2 : filesystem) :
  move_render_passes os pre out fs = (Returned tt, fs1) ->
  move_render_pass os out (stem out) d fs1 = (Returned tt, fs2) ->
  move_render_passes os (pre ++ [d]) out fs = (Returned tt, fs2).
Proof.
  intros Hpre Hd. unfold move_render_passes in *.
  rewrite for_each_app. erewrite bind_returned by exact Hpre.
  cbn [for_each]. erewrite bind_returned by exact Hd. reflexivity.
Qed.

End RenameFacts.

(** ** Paths *)

Section PathFacts.

Open Scope string_scope.

Lemma string_append_empty_r (s : string) : s ++ EmptyString = s.
Proof. induction s as [| c s IH]; cbn; [| rewrite IH]; reflexivity. Qed.

Lemma string_append_assoc (a b c : string) : (a ++ b) ++ c = a ++ (b ++ c).
Proof. induction a as [| x a IH]; cbn; [| rewrite IH]; reflexivity. Qed.

Lemma rfind_dot_append (a b : string) :
  rfind_dot a = None -> rfind_dot b = None -> rfind_dot (a ++ b) = None.
Proof.
  intros Ha Hb. induction a as [| c a IH]; [exact Hb |].
  cbn in *. destruct (rfind_dot a); [discriminate |].
  rewrite IH by reflexivity.
  destruct (Ascii.eqb c "."); [discriminate | reflexivity].
Qed.

Lemma has_sep_append (os : platform) (a b : string) :
  has_sep os (a ++ b) = has_sep os a || has_sep os b.
Proof.
  induction a as [| c a IH]; [reflexivity |].
  cbn. rewrite IH, orb_assoc. reflexivity.
Qed.

Lemma name_stem_plain (nm : string) : rfind_dot nm = None -> name_stem nm = nm.
Proof. intros H. unfold name_stem, suffix_index. rewrite H. reflexivity. Qed.

Lemma name_suffix_plain (nm : string) :
  rfind_dot nm = None -> name_suffix nm = EmptyString.
Proof. intros H. unfold name_suffix, suffix_index. rewrite H. reflexivity. Qed.

Variable os : platform.

(** Whatever the names, the path that [move_render_passes] gives a file
    is a sibling of [output_dir] whose name ends in [.jpg]. *)
Lemma new_filepath_shape (output_dir t : Path) (image_id pass_name : string) :
  new_filepath os output_dir image_id pass_name = Returned t ->
  exists base : string, t = (parent output_dir ++ [(base ++ ".jpg")%string])%list.
Proof.
  unfold new_filepath, with_stem, with_name.
  destruct (String.eqb (name output_dir) EmptyString); [discriminate |].
  destruct (_ || _ || _); [discriminate |].
  cbn [bind_result]. unfold with_suffix.
  destruct (has_sep os ".jpg"); [discriminate |].
  cbn [String.eqb startswith_dot negb andb orb Ascii.eqb Bool.eqb].
  rewrite parent_snoc, name_snoc.
  destruct (String.eqb _ EmptyString); [discriminate |].
  destruct (String.eqb _ EmptyString); intros H; injection H as <-;
    eexists; reflexivity.
Qed.

Lemma has_sep_underscore : has_sep os "_" = false.
Proof. destruct os; reflexivity. Qed.

Lemma has_sep_jpg : has_sep os ".jpg" = false.
Proof. destruct os; reflexivity. Qed.

(** For names without a dot and without a separator the path is
    [<parent of output_dir>/<name of output_dir>_<pass_name>.jpg]. *)
Lemma new_filepath_plain (output_dir : Path) (pass_name : string) :
  name output_dir <> EmptyString ->
  rfind_dot (name output_dir) = None ->
  rfind_dot pass_name = None ->
  has_sep os (name output_dir) = false ->
  has_sep os pass_name = false ->
  new_filepath os output_dir (stem output_dir) pass_name =
  Returned (parent output_dir
            ++ [(name output_dir ++ "_" ++ pass_name ++ ".jpg")%string])%list.
Proof.
  intros Hname Hdot_o Hdot_p Hsep_o Hsep_p.
  unfold new_filepath, with_stem, with_name, stem, suffix.
  rewrite (name_stem_plain _ Hdot_o), (name_suffix_plain _ Hdot_o), string_append_empty_r.
  destruct (String.eqb_spec (name output_dir) EmptyString) as [E | _]; [contradiction |].
  set (nm := name output_dir ++ "_" ++ pass_name).
  assert (Hnm_dot : rfind_dot nm = None).
  { unfold nm. apply rfind_dot_append; [exact Hdot_o |].
    apply rfind_dot_append; [reflexivity | exact Hdot_p]. }
  assert (Hnm_sep : has_sep os nm = false).
  { unfold nm. rewrite !has_sep_append, Hsep_o, Hsep_p, has_sep_underscore.
    reflexivity. }
  assert (Hnm_ne : String.eqb nm EmptyString = false).
  { unfold nm. destruct (name output_dir); [contradiction | reflexivity]. }
  assert (Hnm_pt : String.eqb nm "." = false).
  { unfold nm. destruct (name output_dir) as [| c [| c' s]];
      [contradiction | | ]; cbn; destruct (Ascii.eqb c "."); reflexivity. }
  rewrite Hnm_ne, Hnm_sep, Hnm_pt. cbn [orb bind_result].
  unfold with_suffix, suffix. rewrite has_sep_jpg.
  cbn [String.eqb startswith_dot negb andb orb Ascii.eqb Bool.eqb].
  rewrite parent_snoc, name_snoc, Hnm_ne, (name_suffix_plain _ Hnm_dot).
  cbn [String.eqb]. unfold nm. rewrite !string_append_assoc. reflexivity.
Qed.

End PathFacts.

(** ** The pass reconciler ([move_render_passes]) *)

Section ReconcilerFacts.

Variable os : platform.

Lemma is_dir_not_file (fs : filesystem) (p q : Path) (c : string) :
  is_dir fs p = true -> lookup fs q = Some (File c) -> q <> [] -> p <> q.
Proof.
  intros Hdir Hfile Hq ->. unfold is_dir in Hdir.
  destruct q; [contradiction |]. rewrite Hfile in Hdir. discriminate.
Qed.

Lemma is_dir_not_missing (fs : filesystem) (p q : Path) :
  is_dir fs p = true -> lookup fs q = None -> q <> [] -> p <> q.
Proof.
  intros Hdir Hnone Hq ->. unfold is_dir in Hdir.
  destruct q; [contradiction |]. rewrite Hnone in Hdir. discriminate.
Qed.

Lemma snoc_neq (p : Path) (nm : string) : p <> p ++ [nm].
Proof.
  intros H. apply (f_equal (@List.length string)) in H.
  rewrite length_app in H. cbn in H. lia.
Qed.

(** What a staging directory that is [ready] implies for one turn. *)
Lemma ready_turn (out : Path) (fs : filesystem) (j : staged) :
  is_dir fs (parent out) = true ->
  ready os out fs j ->
  move_render_pass os out (stem out) j.(staging_dir) fs =
    (Returned tt, move_file fs j.(staged_file) j.(target))
  /\ parent j.(target) = parent out
  /\ j.(target) <> []
  /\ parent j.(staged_file) = j.(staging_dir)
  /\ j.(staged_file) <> []
  /\ j.(staged_file) <> j.(target).
Proof.
  intros Hout (Hdir & Hiter & Hmatch & Hfile & Htarget & Hfree).
  destruct (new_filepath_shape os _ _ _ _ Htarget) as [base Hbase].
  assert (Hpt : parent j.(target) = parent out) by (rewrite Hbase; apply parent_snoc).
  assert (Htne : j.(target) <> []) by (rewrite Hbase; destruct (parent out); discriminate).
  destruct (in_iterdir_parent fs j.(staging_dir) j.(staged_file)) as [Hpf Hfne].
  { rewrite Hiter. left. reflexivity. }
  assert (Hft : j.(staged_file) <> j.(target)).
  { intros E. rewrite E, Hfree in Hfile. discriminate. }
  repeat split; try assumption.
  rewrite (move_render_pass_first os out _ j.(staged_file) j.(target) []).
  - apply (rename_file_free os fs _ _ j.(staged_content)); try assumption.
    rewrite Hpt. exact Hout.
  - unfold glob. rewrite Hdir, Hiter. cbn [filter]. rewrite Hmatch. reflexivity.
  - exact Htarget.
Qed.


(** A turn leaves the staging directories of the other layers [ready]. *)
Lemma ready_after_turn (out : Path) (fs : filesystem) (j j' : staged) :
  is_dir fs (parent out) = true ->
  ready os out fs j ->
  ready os out fs j' ->
  j.(staging_dir) <> parent out ->
  j'.(staging_dir) <> parent out ->
  j'.(staging_dir) <> j.(staging_dir) ->
  j'.(target) <> j.(target) ->
  ready os out (move_file fs j.(staged_file) j.(target)) j'.
Proof.
  intros Hout Hj Hj' Hd Hd' Hdd Htt.
  destruct (ready_turn out fs j Hout Hj) as (_ & Hpt & Htne & Hpf & Hfne & Hft).
  destruct (ready_turn out fs j' Hout Hj') as (_ & Hpt' & Htne' & Hpf' & Hfne' & Hft').
  destruct Hj as (Hdir & Hiter & Hmatch & Hfile & Htarget & Hfree).
  destruct Hj' as (Hdir' & Hiter' & Hmatch' & Hfile' & Htarget' & Hfree').
  assert (Hff : j'.(staged_file) <> j.(staged_file)) by congruence.
  assert (Hf't : j'.(staged_file) <> j.(target)) by congruence.
  assert (Ht'f : j'.(target) <> j.(staged_file)) by congruence.
  unfold ready. repeat split.
  - rewrite is_dir_move_file_other; [exact Hdir' | |].
    + apply (is_dir_not_file fs _ _ _ Hdir' Hfile Hfne).
    + apply (is_dir_not_missing fs _ _ Hdir' Hfree Htne).
  - rewrite iterdir_move_file.
    + rewrite Hiter'. cbn [filter].
      rewrite (path_eqb_neq _ _ Hff). reflexivity.
    + unfold is_child. destruct j.(target); [reflexivity |].
      rewrite Hpt. apply path_eqb_neq. congruence.
  - exact Hmatch'.
  - rewrite lookup_move_file_other by assumption. exact Hfile'.
  - exact Htarget'.
  - rewrite lookup_move_file_other by assumption. exact Hfree'.
Qed.

(** The reconciliation of staging directories that are all [ready]. *)
Lemma move_render_passes_ready (out : Path) (js : list staged) :
  forall fs : filesystem,
  is_dir fs (parent out) = true ->
  (forall j, In j js -> ready os out fs j) ->
  (forall j, In j js -> j.(staging_dir) <> parent out) ->
  NoDup (map staging_dir js) ->
  NoDup (map target js) ->
  exists fs',
    move_render_passes os (map staging_dir js) out fs = (Returned tt, fs')
    /\ (forall j, In j js ->
          lookup fs' j.(target) = Some (File j.(staged_content))
          /\ lookup fs' j.(staged_file) = None
          /\ iterdir fs' j.(staging_dir) = [])
    /\ (forall p, (forall j, In j js -> p <> j.(staged_file) /\ p <> j.(target)) ->
          lookup fs' p = lookup fs p)
    /\ (forall d, d <> parent out -> iterdir fs d = [] -> iterdir fs' d = []).
Proof.
  induction js as [| j js IH]; intros fs Hout Hready Hdirs Hnd Hnt.
  - exists fs. split; [reflexivity |]. split; [intros j [] |].
    split; [reflexivity | auto].
  - assert (Hj : ready os out fs j) by (apply Hready; left; reflexivity).
    destruct (ready_turn out fs j Hout Hj) as (Hturn & Hpt & Htne & Hpf & Hfne & Hft).
    pose proof Hj as (Hdir & Hiter & Hmatch & Hfile & Htarget & Hfree).
    cbn [map] in Hnd, Hnt.
    apply NoDup_cons_iff in Hnd. destruct Hnd as [Hnd1 Hnd].
    apply NoDup_cons_iff in Hnt. destruct Hnt as [Hnt1 Hnt].
    set (fs1 := move_file fs j.(staged_file) j.(target)) in *.
    assert (Hd : j.(staging_dir) <> parent out) by (apply Hdirs; left; reflexivity).
    assert (Hout1 : is_dir fs1 (parent out) = true).
    { unfold fs1. rewrite is_dir_move_file_other; [exact Hout | |].
      - apply (is_dir_not_file fs _ _ _ Hout Hfile Hfne).
      - apply (is_dir_not_missing fs _ _ Hout Hfree Htne). }
    assert (Hready1 : forall j', In j' js -> ready os out fs1 j').
    { intros j' Hin. unfold fs1. apply ready_after_turn; try assumption.
      - apply Hready. right. exact Hin.
      - apply Hdirs. right. exact Hin.
      - intros E. apply Hnd1. rewrite <- E. apply in_map. exact Hin.
      - intros E. apply Hnt1. rewrite <- E. apply in_map. exact Hin. }
    destruct (IH fs1 Hout1 Hready1) as (fs' & Hrun & Hmoved & Hframe & Hempty);
      [intros j' Hin; apply Hdirs; right; exact Hin | exact Hnd | exact Hnt |].
    exists fs'. split; [| split; [| split]].
    + cbn [map]. unfold move_render_passes in *. cbn [for_each].
      erewrite bind_returned by exact Hturn. exact Hrun.
    + assert (Hothers : forall j', In j' js ->
                j.(staged_file) <> j'.(staged_file) /\ j.(staged_file) <> j'.(target)
                /\ j.(target) <> j'.(staged_file) /\ j.(target) <> j'.(target)).
      { intros j' Hin.
        assert (Hj' : ready os out fs j') by (apply Hready; right; exact Hin).
        destruct (ready_turn out fs j' Hout Hj') as (_ & Hpt' & _ & Hpf' & _ & _).
        assert (Hd' : j'.(staging_dir) <> parent out) by (apply Hdirs; right; exact Hin).
        assert (Hdd : j'.(staging_dir) <> j.(staging_dir)).
        { intros E. apply Hnd1. rewrite <- E. apply in_map. exact Hin. }
        assert (Htt : j'.(target) <> j.(target)).
        { intros E. apply Hnt1. rewrite <- E. apply in_map. exact Hin. }
        repeat split; congruence. }
      intros j0 [<- | Hin]; [| apply Hmoved; exact Hin].
      split; [| split].
      * rewrite Hframe by (intros j' Hin; split; [apply Hothers | apply Hothers]; exact Hin).
        unfold fs1. rewrite lookup_move_file_dst by exact Hft. exact Hfile.
      * rewrite Hframe by (intros j' Hin; split; [apply Hothers | apply Hothers]; exact Hin).
        unfold fs1. apply lookup_move_file_src. exact Hft.
      * apply Hempty; [exact Hd |].
        unfold fs1. rewrite iterdir_move_file.
        -- rewrite Hiter. cbn [filter]. rewrite path_eqb_refl. reflexivity.
        -- unfold is_child. destruct j.(target); [reflexivity |].
           rewrite Hpt. apply path_eqb_neq. congruence.
    + intros p Hp.
      rewrite Hframe by (intros j' Hin; apply Hp; right; exact Hin).
      destruct (Hp j (or_introl eq_refl)) as [Hpf' Hpt'].
      unfold fs1. apply lookup_move_file_other; assumption.
    + intros d Hdne Hnil. apply Hempty; [exact Hdne |].
      unfold fs1. rewrite iterdir_move_file.
      * rewrite Hnil. reflexivity.
      * unfold is_child. destruct j.(target); [reflexivity |].
        rewrite Hpt. apply path_eqb_neq. congruence.
Qed.

End ReconcilerFacts.

Section ReconcilerClaims.

Variable os : platform.

(** C2, amended. Let every staging directory of the table hold one
    file, with a dot in its name, and nothing else; let the staging
    directories be distinct and none of them be the directory of
    [output_dir]; let the targets be distinct and free. Then
    [move_render_passes] raises nothing; afterwards each file is at its
    target with its content, is gone from its staging directory, and
    the staging directory is empty. The target is a sibling of
    [output_dir] whose name ends in [.jpg], whatever the extension of
    the staged file; for names without dots and separators it is
    [<name of output_dir>_<name of the staging directory>.jpg]. *)
Theorem move_render_passes_spec (out : Path) (js : list staged) (fs : filesystem) :
  is_dir fs (parent out) = true ->
  (forall j, In j js -> ready os out fs j) ->
  (forall j, In j js -> j.(staging_dir) <> parent out) ->
  NoDup (map staging_dir js) ->
  NoDup (map target js) ->
  exists fs',
    move_render_passes os (map staging_dir js) out fs = (Returned tt, fs')
    /\ forall j, In j js ->
         lookup fs' j.(target) = Some (File j.(staged_content))
         /\ lookup fs' j.(staged_file) = None
         /\ iterdir fs' j.(staging_dir) = []
         /\ (exists base : string,
               j.(target) = parent out ++ [(base ++ ".jpg")%string])
         /\ (rfind_dot (name out) = None ->
             rfind_dot (name j.(staging_dir)) = None ->
             has_sep os (name out) = false ->
             has_sep os (name j.(staging_dir)) = false ->
             j.(target) =
               parent out
               ++ [(name out ++ "_" ++ name j.(staging_dir) ++ ".jpg")%string]).
Proof.
  intros Hout Hready Hdirs Hnd Hnt.
  destruct (move_render_passes_ready os out js fs Hout Hready Hdirs Hnd Hnt)
    as (fs' & Hrun & Hmoved & _ & _).
  exists fs'. split; [exact Hrun |].
  intros j Hin. destruct (Hmoved j Hin) as (Ht & Hf & Hd).
  destruct (Hready j Hin) as (_ & _ & _ & _ & Htarget & _).
  repeat split; try assumption.
  - apply (new_filepath_shape os _ _ _ _ Htarget).
  - intros Hdo Hdd Hso Hsd.
    assert (Hname : name out <> EmptyString).
    { intros E. unfold new_filepath, with_stem, with_name in Htarget.
      rewrite E in Htarget. discriminate Htarget. }
    assert (Hs : stem j.(staging_dir) = name j.(staging_dir))
      by (unfold stem; apply name_stem_plain; exact Hdd).
    rewrite Hs in Htarget.
    pose proof (new_filepath_plain os out (name j.(staging_dir))
                  Hname Hdo Hdd Hso Hsd) as Hplain.
    rewrite Hplain in Htarget. injection Htarget as <-. reflexivity.
Qed.

(** C1, amended. Let the reconciliation of the directories [pre] have
    succeeded and let [d] be next.
    - When no entry of [d] matches [*.*], the indexing of the empty
      list raises [IndexError].
    - When two or more entries match, nothing is raised on that
      account: the first one listed is renamed and the others stay.
    - When a file is at the target already, [rename] decides: on
      Windows it raises [FileExistsError] and nothing is written, on
      POSIX the file at the target is replaced. *)
Theorem move_render_passes_failures (pre : list Path) (d out : Path)
        (fs fs1 : filesystem) :
  move_render_passes os pre out fs = (Returned tt, fs1) ->
  (glob fs1 d "*.*" = [] ->
   forall post,
     move_render_passes os (pre ++ d :: post) out fs = (Raised IndexError, fs1))
  /\ (forall f g more t c,
        glob fs1 d "*.*" = f :: g :: more ->
        new_filepath os out (stem out) (stem d) = Returned t ->
        lookup fs1 f = Some (File c) ->
        lookup fs1 t = None ->
        is_dir fs1 (parent t) = true ->
        move_render_passes os (pre ++ [d]) out fs
          = (Returned tt, move_file fs1 f t)
        /\ lookup (move_file fs1 f t) t = Some (File c)
        /\ (is_child d t = false ->
            iterdir (move_file fs1 f t) d
            = filter (fun p => negb (path_eqb p f)) (iterdir fs1 d)))
  /\ (forall f more t c c',
        glob fs1 d "*.*" = f :: more ->
        new_filepath os out (stem out) (stem d) = Returned t ->
        lookup fs1 f = Some (File c) ->
        lookup fs1 t = Some (File c') ->
        f <> t ->
        is_dir fs1 (parent t) = true ->
        match os with
        | Windows =>
            forall post,
              move_render_passes os (pre ++ d :: post) out fs
              = (Raised FileExistsError, fs1)
        | Posix =>
            move_render_passes os (pre ++ [d]) out fs
              = (Returned tt, move_file fs1 f t)
            /\ lookup (move_file fs1 f t) t = Some (File c)
        end).
Proof.
  intros Hpre. split; [| split].
  - intros Hglob post.
    apply (move_render_passes_stops os pre post d out fs fs1 fs1 _ Hpre).
    apply move_render_pass_empty. exact Hglob.
  - intros f g more t c Hglob Ht Hf Hfree Hdir.
    assert (Hft : f <> t) by (intros E; rewrite E, Hfree in Hf; discriminate).
    split; [| split].
    + apply (move_render_passes_last os pre d out fs fs1 _ Hpre).
      rewrite (move_render_pass_first os out d f t (g :: more) _ fs1 Hglob Ht).
      apply (rename_file_free os fs1 f t c); assumption.
    + rewrite lookup_move_file_dst by exact Hft. exact Hf.
    + intros Hchild. apply iterdir_move_file. exact Hchild.
  - intros f more t c c' Hglob Ht Hf Htaken Hft Hdir.
    assert (Hturn : move_render_pass os out (stem out) d fs1 = rename os f t fs1)
      by apply (move_render_pass_first os out d f t more _ fs1 Hglob Ht).
    destruct os.
    + split.
      * apply (move_render_passes_last Posix pre d out fs fs1 _ Hpre).
        rewrite Hturn. unfold rename.
        rewrite Hf, (path_eqb_neq _ _ Hft), Hdir, Htaken. reflexivity.
      * rewrite lookup_move_file_dst by exact Hft. exact Hf.
    + intros post.
      apply (move_render_passes_stops Windows pre post d out fs fs1 fs1 _ Hpre).
      rewrite Hturn. unfold rename.
      rewrite Hf, (path_eqb_neq _ _ Hft), Hdir, Htaken. reflexivity.
Qed.

End ReconcilerClaims.

Lemma move_render_passes_spec_witness :
  exists fs',
    move_render_passes Windows (map staging_dir samples.rendered_passes)
                       ["blender"; "A"] samples.rendered = (Returned tt, fs')
    /\ lookup fs' ["blender"; "A_Depth.jpg"] = Some (File "depth of A")
    /\ iterdir fs' ["tmp"; "Depth"] = [].
Proof.
  destruct (move_render_passes_spec Windows ["blender"; "A"]
              samples.rendered_passes samples.rendered) as (fs' & Hrun & Hall).
  - reflexivity.
  - intros j [<- | [<- | []]]; repeat split; reflexivity.
  - intros j [<- | [<- | []]]; discriminate.
  - repeat constructor; cbn; intuition discriminate.
  - repeat constructor; cbn; intuition discriminate.
  - exists fs'. split; [exact Hrun |].
    destruct (Hall _ (or_introl eq_refl)) as (Ht & _ & Hd & _).
    split; [exact Ht | exact Hd].
Defined.

(** C2, as the specification states it, fails on a render that wrote
    [Image0001.png]: the file ends up at [A_Depth.jpg], and nothing is at
    [A_Depth.png]. *)
Lemma move_render_passes_forces_jpg :
  let r := move_render_passes Posix [["tmp"; "Depth"]; ["tmp"; "Normal"]]
                              ["blender"; "A"] samples.rendered in
  fst r = Returned tt
  /\ lookup (snd r) ["blender"; "A_Depth.png"] = None
  /\ lookup (snd r) ["blender"; "A_Depth.jpg"] = Some (File "depth of A").
Proof. vm_compute. repeat split; reflexivity. Qed.

Lemma move_render_passes_failures_witness :
  move_render_passes Windows [["tmp"; "Depth"]; ["tmp"; "Normal"]]
                     ["blender"; "A"] samples.depth_only
  = (Raised IndexError,
     snd (move_render_passes Windows [["tmp"; "Depth"]] ["blender"; "A"]
                             samples.depth_only)).
Proof.
  refine (proj1 (move_render_passes_failures Windows [["tmp"; "Depth"]]
                   ["tmp"; "Normal"] ["blender"; "A"] samples.depth_only _ _) _ []).
  - vm_compute. reflexivity.
  - vm_compute. reflexivity.
Defined.

(** C1, as the specification states it, fails on a staging directory that
    holds two files: nothing is raised, on either platform. And on POSIX
    a file that is at the target already is replaced. *)
Lemma move_render_passes_takes_first :
  List.length (glob samples.stale ["tmp"; "Depth"] "*.*") = 2
  /\ fst (move_render_passes Windows [["tmp"; "Depth"]] ["blender"; "A"]
                             samples.stale) = Returned tt
  /\ fst (move_render_passes Posix [["tmp"; "Depth"]] ["blender"; "A"]
                             samples.stale) = Returned tt
  /\ lookup samples.collision ["blender"; "A_Depth.jpg"]
     = Some (File "earlier depth of A")
  /\ lookup (snd (move_render_passes Posix [["tmp"; "Depth"]] ["blender"; "A"]
                                     samples.collision))
            ["blender"; "A_Depth.jpg"]
     = Some (File "depth of A").
Proof. vm_compute. repeat split; reflexivity. Qed.

(** ** The driver ([main2]) *)

Section DriverFacts.

Import blender.

Variable os : platform.
Variable render_still : Exc world unit.

(** C8, amended. When the turn of a staging directory raises, the files
    of the directories before it have been moved and stay moved, the
    files of the directories after it are not touched, and the exception
    leaves [move_render_passes], the turn of the record and the loop of
    [main2] as it was raised: nothing is undone and no record
    identifier is attached. *)
Theorem main2_record_failure (projection : TransverseMercator.t)
        (pre post : list Path) (d savedir : Path) (image_id : string)
        (lon lat alt angle x y : R) (w w1 w2 : world)
        (fs_pre fs_d : filesystem) (e : exn) :
  let out := joinpath os savedir image_id in
  let streetview_data := (image_id, lon, lat, alt, angle) in
  TransverseMercator.from_geographic projection lat lon = Returned (x, y) ->
  in_scene (place_camera (x, y, alt) angle default_offset_altitude) w
    = (Returned tt, w1) ->
  render_still w1 = (Returned tt, w2) ->
  move_render_passes os pre out w2.(files) = (Returned tt, fs_pre) ->
  move_render_pass os out (stem out) d fs_pre = (Raised e, fs_d) ->
  move_render_passes os (pre ++ d :: post) out w2.(files) = (Raised e, fs_pre)
  /\ main2_record os render_still projection (pre ++ d :: post) savedir
                  streetview_data w
     = (Raised e, {| files := fs_pre; the_scene := w2.(the_scene) |})
  /\ forall rows,
       for_each (streetview_data :: rows)
                (main2_record os render_still projection (pre ++ d :: post) savedir)
                w
       = (Raised e, {| files := fs_pre; the_scene := w2.(the_scene) |}).
Proof.
  intros out streetview_data Hxy Hplace Hrender Hpre Hd.
  pose proof (move_render_passes_stops os pre post d out _ _ _ _ Hpre Hd) as Hstop.
  assert (Hrecord :
    main2_record os render_still projection (pre ++ d :: post) savedir
                 streetview_data w
    = (Raised e, {| files := fs_pre; the_scene := w2.(the_scene) |})).
  { unfold main2_record, streetview_data.
    unfold lift at 1. erewrite bind_returned by (rewrite Hxy; reflexivity).
    cbv beta iota.
    erewrite bind_returned by exact Hplace.
    erewrite bind_returned by exact Hrender.
    unfold in_files, zoom. fold out. rewrite Hstop. reflexivity. }
  split; [exact Hstop |]. split; [exact Hrecord |].
  intros rows. cbn [for_each]. erewrite bind_raised by exact Hrecord. reflexivity.
Qed.

End DriverFacts.

Lemma main2_record_failure_witness :
  fst (blender.main2_record Windows samples.render_depth_only
         (TransverseMercator.init 45 45 1)
         [["tmp"; "Depth"]; ["tmp"; "Normal"]] ["blender"]
         ("A", 45%R, 45%R, 10%R, 0%R) samples.first_world)
  = Raised IndexError.
Proof.
  pose proof (main2_record_failure Windows samples.render_depth_only
                (TransverseMercator.init 45 45 1)
                [["tmp"; "Depth"]] [] ["tmp"; "Normal"] ["blender"] "A"
                45%R 45%R 10%R 0%R 0%R 0%R samples.first_world
                (snd (blender.in_scene
                        (blender.place_camera (0, 0, 10)%R 0%R
                                              blender.default_offset_altitude)
                        samples.first_world))
                (snd (samples.render_depth_only
                        (snd (blender.in_scene
                                (blender.place_camera (0, 0, 10)%R 0%R
                                   blender.default_offset_altitude)
                                samples.first_world))))
                (snd (move_render_passes Windows [["tmp"; "Depth"]] ["blender"; "A"]
                                         samples.depth_only))
                (snd (move_render_passes Windows [["tmp"; "Depth"]] ["blender"; "A"]
                                         samples.depth_only))
                IndexError) as H.
  cbv zeta in H.
  destruct H as (_ & Hrecord & _).
  - apply from_geographic_origin. lra.
  - reflexivity.
  - reflexivity.
  - vm_compute. reflexivity.
  - vm_compute. reflexivity.
  - exact (f_equal fst Hrecord).
Defined.

(** C8, as the specification states it, fails on a render that wrote the
    pass [Depth] only: [move_render_passes] raises [IndexError] at
    [Normal], and the output directory then holds the depth of the record
    and not its normal. *)
Lemma move_render_passes_leaves_some_layers :
  let r := move_render_passes Windows [["tmp"; "Depth"]; ["tmp"; "Normal"]]
                              ["blender"; "A"] samples.depth_only in
  fst r = Raised IndexError
  /\ lookup (snd r) ["blender"; "A_Depth.jpg"] = Some (File "depth of A")
  /\ lookup (snd r) ["blender"; "A_Normal.jpg"] = None.
Proof. vm_compute. repeat split; reflexivity. Qed.

(* ================================================================== *)
(** * Further properties *)

(** ** The projection *)

Section ProjectionMore.

Import math TransverseMercator.
Open Scope R_scope.

(** On the central meridian the longitude offset is zero, whatever the
    longitude of the origin: [x] is zero and [y] is
    [scale * R * (atan (tan lat) - lat0)], for every latitude whose
    tangent is defined. *)
Theorem from_geographic_central_meridian (lat0 lon0 s lat : R) :
  cos (radians lat) <> 0 ->
  from_geographic (init lat0 lon0 s) lat lon0 =
    Returned (0, s * 6378137 * (atan (tan (radians lat)) - radians lat0)).
Proof. intros _. apply from_geographic_on_meridian. Qed.

Lemma from_geographic_central_meridian_witness :
  from_geographic (init 45 45 1) 46 45 =
    Returned (0, 1 * 6378137 * (atan (tan (radians 46)) - radians 45)).
Proof.
  apply (from_geographic_central_meridian 45 45 1 46).
  pose proof PI_RGT_0 as Hpi.
  apply Rgt_not_eq. apply cos_gt_0; unfold radians; lra.
Defined.

End ProjectionMore.

(** ** The render graph *)

Section RenderGraphMore.

Import blender compositor.

(** The first loop of [create_nodes], which is the loop of [clean_nodes]. *)
Lemma clean_loop_closed (sc : scene) :
  links_closed sc.(tree) ->
  for_each sc.(tree).(nodes) (fun node => nodes_remove node.(node_id)) sc =
  (Returned tt,
   set_tree {| nodes := []; links := []; next_id := sc.(tree).(next_id) |} sc).
Proof.
  intros Hclosed. rewrite remove_loop. f_equal.
  pose proof (without_all sc.(tree) Hclosed) as Hall.
  destruct (nodes (tree sc)) as [| n ns] eqn:Hnodes.
  - rewrite <- (set_tree_self sc) at 1. f_equal.
    rewrite <- Hall. unfold without. rewrite Hnodes.
    destruct (tree sc) as [ns0 ls0 nxt0]. cbn in *. subst ns0. f_equal.
    symmetry. apply filter_all. intros l Hl. reflexivity.
  - rewrite Hall. reflexivity.
Qed.

Lemma clean_nodes_closed (sc : scene) :
  links_closed sc.(tree) ->
  clean_nodes sc =
  (Returned tt,
   set_tree {| nodes := []; links := []; next_id := sc.(tree).(next_id) |} sc).
Proof.
  intros Hclosed. unfold clean_nodes.
  erewrite bind_returned by reflexivity.
  apply clean_loop_closed. exact Hclosed.
Qed.

(** [clean_nodes] leaves a tree without nodes and without links, and the
    rest of the scene as it was. *)
Theorem clean_nodes_spec (sc : scene) :
  links_closed sc.(tree) ->
  clean_nodes sc =
  (Returned tt,
   set_tree {| nodes := []; links := []; next_id := sc.(tree).(next_id) |} sc).
Proof.
  apply clean_nodes_closed.
Qed.

Lemma clean_nodes_spec_witness :
  tree (snd (clean_nodes samples.stale_scene))
  = {| nodes := []; links := []; next_id := 2 |}.
Proof.
  rewrite (clean_nodes_spec samples.stale_scene).
  - reflexivity.
  - intros l [<- | []]. cbn. split; [left | right; left]; reflexivity.
Defined.

Variable os : platform.

Lemma imap_from_ids (tmp_dir : Path) (src : nat) (names : list string) (i : nat) :
  map node_id (imap_from i (sink_node os tmp_dir src) names)
  = map (fun k => src + 1 + k) (seq i (List.length names)).
Proof.
  revert i. induction names as [| nm names IH]; intros i; [reflexivity |].
  cbn. rewrite IH. reflexivity.
Qed.

Lemma imap_from_links (src : nat) (names : list string) (i : nat) (l : link) :
  In l (imap_from i (sink_link src) names) ->
  l.(from_node) = src
  /\ exists k, i <= k < i + List.length names /\ l.(to_node) = src + 1 + k.
Proof.
  revert i. induction names as [| nm names IH]; intros i; [intros [] |].
  cbn [imap_from List.length]. intros [<- | Hin].
  - split; [reflexivity |]. exists i. split; [lia | reflexivity].
  - destruct (IH (S i) Hin) as [Hfrom [k [Hk Hto]]].
    split; [exact Hfrom |]. exists k. split; [lia | exact Hto].
Qed.

(** The tree that [create_nodes] builds has no dangling link. *)
Lemma built_tree_closed (tmp_dir : Path) (src : nat) (names : list string) :
  links_closed (built_tree os tmp_dir src names).
Proof.
  intros l Hl. cbn [built_tree nodes links] in *.
  destruct (imap_from_links src names 0 l Hl) as [Hfrom [k [Hk Hto]]].
  cbn [map]. split.
  - left. cbn. symmetry. exact Hfrom.
  - right. rewrite imap_from_ids, Hto. apply in_map. apply in_seq. lia.
Qed.

(** [create_nodes] does not accumulate nodes: called again with the same
    arguments it returns the same paths and leaves a tree of the same
    nodes and links, with fresh identifiers. *)
Theorem create_nodes_twice (tmp_dir : Path) (render_pass_names : list string)
        (sc : scene) :
  links_closed sc.(tree) ->
  (forall nm, In nm render_pass_names -> In nm sc.(view_layer_passes)) ->
  (create_nodes os tmp_dir render_pass_names ;;;
   create_nodes os tmp_dir render_pass_names)%py sc =
  (Returned (map (joinpath os tmp_dir) render_pass_names),
   set_tree (built_tree os tmp_dir
               (sc.(tree).(next_id) + 1 + List.length render_pass_names)
               render_pass_names) sc).
Proof.
  intros Hclosed Hpass.
  erewrite bind_returned by (apply create_nodes_eq; assumption).
  rewrite create_nodes_eq.
  - rewrite set_tree_set_tree. reflexivity.
  - apply built_tree_closed.
  - exact Hpass.
Qed.

End RenderGraphMore.

Lemma create_nodes_twice_witness :
  fst ((blender.create_nodes Posix ["tmp"] ["Depth"; "Normal"] ;;;
        blender.create_nodes Posix ["tmp"] ["Depth"; "Normal"])%py samples.stale_scene)
  = Returned [["tmp"; "Depth"]; ["tmp"; "Normal"]].
Proof.
  rewrite (create_nodes_twice Posix ["tmp"] ["Depth"; "Normal"] samples.stale_scene).
  - reflexivity.
  - intros l [<- | []]. cbn. split; [left | right; left]; reflexivity.
  - intros nm [<- | [<- | []]]; cbn; tauto.
Defined.

Section RenderGraphErrors.

Import blender compositor.

Variable os : platform.

(** The turn of a pass that the render-layers node does not offer: the
    file-output node is there, named and bound to its directory, when
    [outputs[...]] raises. *)
Lemma create_node_turn_missing (tmp_dir : Path) (src : nat) (render_pass_name : string)
      (done rest : list Path) (ns : list node) (ls : list link) (sc : scene) :
  let i := List.length done in
  (forall n, In n ns -> n.(node_id) < src + 1 + i) ->
  ~ In render_pass_name sc.(view_layer_passes) ->
  create_node os tmp_dir src i render_pass_name (done ++ [] :: rest)
    (set_tree {| nodes := ns; links := ls; next_id := src + 1 + i |} sc) =
  (Raised (KeyError render_pass_name),
   set_tree {| nodes := ns ++ [sink_node os tmp_dir src i render_pass_name];
               links := ls;
               next_id := src + 1 + S i |} sc).
Proof.
  intros i Hns Hpass.
  assert (Hfresh : forall m, In m ns -> node_id m <> src + 1 + i).
  { intros m Hm E. specialize (Hns m Hm). lia. }
  unfold create_node.
  erewrite bind_returned by apply nodes_new_eq. cbn [nodes links next_id].
  erewrite bind_returned by (apply node_setattr_last; [reflexivity | exact Hfresh]).
  erewrite bind_returned by (apply node_setattr_last; [reflexivity | exact Hfresh]).
  unfold lift at 1. erewrite bind_returned
    by (unfold i; rewrite setitem_middle; reflexivity).
  unfold lift at 1. erewrite bind_returned
    by (unfold i; rewrite getitem_middle; reflexivity).
  erewrite bind_returned by (apply node_setattr_last; [reflexivity | exact Hfresh]).
  erewrite bind_raised by (apply outputs_getitem_missing; exact Hpass).
  replace (src + 1 + S i) with (S (src + 1 + i)) by lia.
  reflexivity.
Qed.

Lemma create_node_loop_missing (tmp_dir : Path) (src : nat) (nm : string)
      (post : list string) (pre : list string) :
  forall (done : list Path) (ns : list node) (ls : list link) (sc : scene),
  let i := List.length done in
  (forall n, In n ns -> n.(node_id) < src + 1 + i) ->
  (forall l, In l ls -> l.(to_node) < src + 1 + i) ->
  (forall p, In p pre -> In p sc.(view_layer_passes)) ->
  ~ In nm sc.(view_layer_passes) ->
  for_enumerate_var i (pre ++ nm :: post)
    (done ++ repeat [] (List.length (pre ++ nm :: post)))
    (create_node os tmp_dir src)
    (set_tree {| nodes := ns; links := ls; next_id := src + 1 + i |} sc) =
  (Raised (KeyError nm),
   set_tree {| nodes := ns ++ imap_from i (sink_node os tmp_dir src) pre
                        ++ [sink_node os tmp_dir src (i + List.length pre) nm];
               links := ls ++ imap_from i (sink_link src) pre;
               next_id := src + 1 + S (i + List.length pre) |} sc).
Proof.
  induction pre as [| p pre IH]; intros done ns ls sc i Hns Hls Hpre Hnm; subst i.
  - cbn [app List.length repeat for_enumerate_var imap_from].
    erewrite bind_raised by (apply create_node_turn_missing; assumption).
    rewrite Nat.add_0_r, app_nil_r. reflexivity.
  - cbn [app List.length repeat for_enumerate_var imap_from].
    erewrite bind_returned
      by (apply create_node_turn; [exact Hns | exact Hls | apply Hpre; left; reflexivity]).
    specialize (IH (done ++ [joinpath os tmp_dir p])
                   (ns ++ [sink_node os tmp_dir src (List.length done) p])
                   (ls ++ [sink_link src (List.length done) p]) sc).
    cbv zeta in IH.
    rewrite length_app in IH. cbn [List.length] in IH.
    replace (List.length done + 1) with (S (List.length done)) in IH by lia.
    rewrite <- !app_assoc in IH. cbn [app] in IH.
    rewrite IH.
    + replace (List.length done + S (List.length pre))
        with (S (List.length done) + List.length pre) by lia.
      reflexivity.
    + intros n Hn. apply in_app_or in Hn. destruct Hn as [Hn | [<- | []]].
      * specialize (Hns n Hn). lia.
      * cbn. lia.
    + intros l Hl. apply in_app_or in Hl. destruct Hl as [Hl | [<- | []]].
      * specialize (Hls l Hl). lia.
      * cbn. lia.
    + intros q Hq. apply Hpre. right. exact Hq.
    + exact Hnm.
Qed.

(** A pass that the render-layers node does not offer makes
    [create_nodes] raise [KeyError] with the name of the first such pass.
    By then the earlier nodes are gone, the passes before it have their
    node and link, and the pass itself has its node without a link. *)
Theorem create_nodes_unknown (tmp_dir : Path) (pre post : list string)
        (nm : string) (sc : scene) :
  links_closed sc.(tree) ->
  (forall p, In p pre -> In p sc.(view_layer_passes)) ->
  ~ In nm sc.(view_layer_passes) ->
  let src := sc.(tree).(next_id) in
  create_nodes os tmp_dir (pre ++ nm :: post) sc =
  (Raised (KeyError nm),
   set_tree {| nodes := source_node src
                        :: imap_from 0 (sink_node os tmp_dir src) pre
                        ++ [sink_node os tmp_dir src (List.length pre) nm];
               links := imap_from 0 (sink_link src) pre;
               next_id := src + 1 + S (List.length pre) |} sc).
Proof.
  intros Hclosed Hpre Hnm src. unfold create_nodes.
  erewrite bind_returned by reflexivity.
  erewrite bind_returned by (apply clean_loop_closed; exact Hclosed).
  erewrite bind_returned by apply nodes_new_eq. cbn [nodes links next_id app].
  erewrite bind_returned
    by (apply (node_setattr_last _ _ []); [reflexivity | intros m []]).
  erewrite bind_returned
    by (apply (node_setattr_last _ _ []); [reflexivity | intros m []]).
  cbn [app].
  pose proof (create_node_loop_missing tmp_dir src nm post pre []
                [source_node src] [] sc) as Hloop.
  cbv zeta in Hloop. cbn [List.length app] in Hloop.
  rewrite Nat.add_0_r in Hloop.
  replace (S (next_id (tree sc))) with (src + 1) by (unfold src; lia).
  refine (Hloop _ _ Hpre Hnm).
  - intros n [<- | []]. cbn. lia.
  - intros l [].
Qed.

End RenderGraphErrors.

Lemma create_nodes_unknown_witness :
  fst (blender.create_nodes Posix ["tmp"] (["Depth"] ++ "Mist" :: ["Normal"])
                            samples.stale_scene)
  = Raised (KeyError "Mist").
Proof.
  rewrite (create_nodes_unknown Posix ["tmp"] ["Depth"] ["Normal"] "Mist"
             samples.stale_scene).
  - reflexivity.
  - intros l [<- | []]. cbn. split; [left | right; left]; reflexivity.
  - intros p [<- | []]. cbn. tauto.
  - cbn. intuition discriminate.
Defined.

Section SelectPass.

Import blender compositor.

Lemma init_node_tree_empty (n : nat) (sc : scene) :
  init_node_tree (set_tree {| nodes := []; links := []; next_id := n |} sc) =
  (Returned tt,
   set_tree {| nodes := [source_node n; composite_node (S n)]; links := [];
               next_id := S (S n) |} sc).
Proof.
  unfold init_node_tree.
  erewrite bind_returned by apply nodes_new_eq. cbn [nodes links next_id app].
  erewrite bind_returned
    by (apply (node_setattr_last _ _ []); [reflexivity | intros m []]).
  erewrite bind_returned
    by (apply (node_setattr_last _ _ []); [reflexivity | intros m []]).
  erewrite bind_returned by apply nodes_new_eq. cbn [nodes links next_id app].
  assert (Hfresh : forall m, In m [source_node n] -> node_id m <> S n).
  { intros m [<- | []]. cbn. lia. }
  erewrite bind_returned
    by (apply (node_setattr_last _ _ [source_node n]); [reflexivity | exact Hfresh]).
  etransitivity;
    [apply (node_setattr_last _ _ [source_node n]); [reflexivity | exact Hfresh] |].
  reflexivity.
Qed.

(** [select_pass] on the tree of [init_node_tree], whatever is linked to
    the composite node: the link from the chosen pass is the only one
    afterwards. *)
Lemma select_pass_replaces (n : nat) (ls : list link) (pass_name : string)
      (sc : scene) :
  (forall l, In l ls -> l.(to_node) = S n /\ l.(to_socket) = 0) ->
  In pass_name sc.(view_layer_passes) ->
  select_pass pass_name
    (set_tree {| nodes := [source_node n; composite_node (S n)]; links := ls;
                 next_id := S (S n) |} sc) =
  (Returned tt,
   set_tree {| nodes := [source_node n; composite_node (S n)];
               links := [{| from_node := n; from_socket := pass_name;
                            to_node := S n; to_socket := 0 |}];
               next_id := S (S n) |} sc).
Proof.
  intros Hls Hpass. unfold select_pass.
  erewrite bind_returned by reflexivity.
  erewrite bind_returned by reflexivity.
  cbn [nodes tree set_tree find source_node composite_node node_name String.eqb
       Ascii.eqb Bool.eqb andb option_map node_id getattr].
  erewrite bind_returned by reflexivity.
  erewrite bind_returned by (apply outputs_getitem_ok; exact Hpass).
  erewrite bind_returned by reflexivity.
  erewrite bind_returned by reflexivity.
  unfold links_new. rewrite set_tree_set_tree.
  cbn [tree set_tree nodes links next_id fst snd]. do 4 f_equal.
  rewrite filter_none; [reflexivity |].
  intros l Hl. destruct (Hls l Hl) as [-> ->].
  rewrite !Nat.eqb_refl. reflexivity.
Qed.

(** After [clean_nodes] and [init_node_tree], selecting passes one after
    another leaves one link, from the pass selected last to the composite
    node: each render of [render_equirectangle_streetview] sees the pass
    of its own turn and no other. *)
Theorem select_pass_last (layers : list string) (last_layer : string) (sc : scene) :
  links_closed sc.(tree) ->
  (forall p, In p (layers ++ [last_layer]) -> In p sc.(view_layer_passes)) ->
  let n := sc.(tree).(next_id) in
  (clean_nodes ;;; init_node_tree ;;;
   for_each (layers ++ [last_layer]) select_pass)%py sc =
  (Returned tt,
   set_tree {| nodes := [source_node n; composite_node (S n)];
               links := [{| from_node := n; from_socket := last_layer;
                            to_node := S n; to_socket := 0 |}];
               next_id := S (S n) |} sc).
Proof.
  intros Hclosed Hpass n.
  erewrite bind_returned by (apply clean_nodes_closed; exact Hclosed).
  erewrite bind_returned by apply init_node_tree_empty.
  fold n.
  assert (Hgen : forall ls : list link,
    (forall l, In l ls -> l.(to_node) = S n /\ l.(to_socket) = 0) ->
    for_each (layers ++ [last_layer]) select_pass
      (set_tree {| nodes := [source_node n; composite_node (S n)]; links := ls;
                   next_id := S (S n) |} sc) =
    (Returned tt,
     set_tree {| nodes := [source_node n; composite_node (S n)];
                 links := [{| from_node := n; from_socket := last_layer;
                              to_node := S n; to_socket := 0 |}];
                 next_id := S (S n) |} sc)).
  { clear Hclosed. induction layers as [| p layers IH]; intros ls Hls.
    - cbn [app for_each].
      erewrite bind_returned
        by (apply select_pass_replaces; [exact Hls | apply Hpass; left; reflexivity]).
      reflexivity.
    - cbn [app for_each].
      erewrite bind_returned
        by (apply select_pass_replaces; [exact Hls | apply Hpass; left; reflexivity]).
      apply IH.
      + intros q Hq. apply Hpass. right. exact Hq.
      + intros l [<- | []]. split; reflexivity. }
  apply Hgen. intros l [].
Qed.

End SelectPass.

Lemma select_pass_last_witness :
  links (tree (snd ((compositor.clean_nodes ;;; compositor.init_node_tree ;;;
                     for_each (["Depth"] ++ ["Normal"]) compositor.select_pass)%py
                      samples.stale_scene)))
  = [{| from_node := 2; from_socket := "Normal"; to_node := 3; to_socket := 0 |}].
Proof.
  rewrite (select_pass_last ["Depth"] "Normal" samples.stale_scene).
  - reflexivity.
  - intros l [<- | []]. cbn. split; [left | right; left]; reflexivity.
  - intros p [<- | [<- | []]]; cbn; tauto.
Defined.

(** ** The camera *)

Section CameraMore.

Import math blender pose.
Open Scope R_scope.

(** The camera that [create_camera] adds. *)
Lemma create_camera_eq (width : Z) (aspect_ratio : R) (sc : scene) :
  aspect_ratio <> 0 ->
  create_camera width aspect_ratio sc =
  (Returned tt,
   {| scene_camera :=
        Some {| location := (0, 0, 0); rotation_euler := [0; 0; 0];
                camera_type := "PANO"; panorama_type := "EQUIRECTANGULAR";
                panorama_resolution := width |};
      render := {| engine := "CYCLES"; resolution_x := width;
                   resolution_y := int (IZR width / aspect_ratio);
                   file_format := "JPEG" |};
      tree := sc.(tree);
      view_layer_passes := sc.(view_layer_passes);
      properties := sc.(properties) |}).
Proof.
  intros Ha. unfold create_camera, bind, modify, lift.
  rewrite truediv_ok by exact Ha. reflexivity.
Qed.

(** With its default arguments [create_camera] sets a render of 2048 by
    1024 pixels, whatever the scene was: the camera, the engine, the two
    resolutions and the file format are set and nothing else changes. *)
Theorem create_camera_default_resolution (sc : scene) :
  create_camera default_width default_aspect_ratio sc =
  (Returned tt,
   {| scene_camera :=
        Some {| location := (0, 0, 0); rotation_euler := [0; 0; 0];
                camera_type := "PANO"; panorama_type := "EQUIRECTANGULAR";
                panorama_resolution := 2048 |};
      render := {| engine := "CYCLES"; resolution_x := 2048;
                   resolution_y := 1024;
                   file_format := "JPEG" |};
      tree := sc.(tree);
      view_layer_passes := sc.(view_layer_passes);
      properties := sc.(properties) |}).
Proof.
  rewrite create_camera_eq by (unfold default_aspect_ratio; lra).
  assert (Hy : int (IZR default_width / default_aspect_ratio) = 1024%Z).
  { unfold default_width, default_aspect_ratio.
    replace (2048 / 2) with (IZR 1024) by lra.
    unfold int. destruct (Rle_dec 0 (IZR 1024)) as [_ | Hn]; [| lra].
    symmetry. apply Int_part_spec. lra. }
  rewrite Hy. reflexivity.
Qed.

(** After [create_camera] with its default arguments, [place_camera]
    finds a camera whatever the scene was before, and the pose is the
    one it is given: the camera keeps what [create_camera] set apart
    from location and rotation. *)
Theorem create_camera_default_then_place (x y z angle offset : R) (sc : scene) :
  exists sc',
    (create_camera default_width default_aspect_ratio ;;;
     place_camera (x, y, z) angle offset)%py sc = (Returned tt, sc')
    /\ sc'.(scene_camera) =
         Some {| location := (x, y, z + offset);
                 rotation_euler := mapillary_to_euler angle;
                 camera_type := "PANO"; panorama_type := "EQUIRECTANGULAR";
                 panorama_resolution := 2048 |}
    /\ sc'.(tree) = sc.(tree).
Proof.
  eexists. split; [| split].
  - erewrite bind_returned
      by (apply create_camera_eq; unfold default_aspect_ratio; lra).
    unfold place_camera, bind, camera_setattr. cbn. reflexivity.
  - reflexivity.
  - reflexivity.
Qed.

(** With an aspect ratio of zero [create_camera] raises
    [ZeroDivisionError] half-way: the earlier camera is replaced and the
    width is set, the height and the file format are not. *)
Theorem create_camera_zero_aspect (width : Z) (sc : scene) :
  create_camera width 0 sc =
  (Raised ZeroDivisionError,
   {| scene_camera :=
        Some {| location := (0, 0, 0); rotation_euler := [0; 0; 0];
                camera_type := "PANO"; panorama_type := "EQUIRECTANGULAR";
                panorama_resolution := width |};
      render := {| engine := "CYCLES"; resolution_x := width;
                   resolution_y := sc.(render).(resolution_y);
                   file_format := sc.(render).(file_format) |};
      tree := sc.(tree);
      view_layer_passes := sc.(view_layer_passes);
      properties := sc.(properties) |}).
Proof.
  unfold create_camera, bind, modify, lift. rewrite truediv_zero. reflexivity.
Qed.

(** [place_camera] raises exactly when the scene has no camera; the
    exception is [AttributeError] and the scene is left as it was. *)
Theorem place_camera_raises (x y z angle offset : R) (sc : scene) :
  (sc.(scene_camera) = None <->
   exists e, fst (place_camera (x, y, z) angle offset sc) = Raised e)
  /\ (sc.(scene_camera) = None ->
      place_camera (x, y, z) angle offset sc = (Raised AttributeError, sc)).
Proof.
  unfold place_camera, bind, camera_setattr.
  destruct (scene_camera sc) as [cam |] eqn:Hcam.
  - cbn. split; [| discriminate]. split; [discriminate |].
    intros [e He]. discriminate He.
  - split; [| reflexivity]. split; [| reflexivity].
    intros _. exists AttributeError. reflexivity.
Qed.

Lemma place_camera_raises_witness :
  place_camera (1, 2, 3) 0 0.3 samples.stale_scene
  = (Raised AttributeError, samples.stale_scene).
Proof.
  apply (proj2 (place_camera_raises 1 2 3 0 0.3 samples.stale_scene)).
  reflexivity.
Defined.

(** A pose is overwritten, not accumulated: of two placements the second
    alone counts. *)
Theorem place_camera_overwrites (p1 p2 : R * R * R) (a1 a2 o1 o2 : R)
        (sc : scene) (cam : camera) :
  sc.(scene_camera) = Some cam ->
  (place_camera p1 a1 o1 ;;; place_camera p2 a2 o2)%py sc
  = place_camera p2 a2 o2 sc.
Proof.
  intros Hcam. destruct p1 as [[x1 y1] z1], p2 as [[x2 y2] z2].
  unfold place_camera, bind, camera_setattr. rewrite Hcam. cbn. reflexivity.
Qed.

Lemma place_camera_overwrites_witness :
  (place_camera (1, 1, 1) 10 0.3 ;;; place_camera (2, 2, 2) 20 0.3)%py samples.scene0
  = place_camera (2, 2, 2) 20 0.3 samples.scene0.
Proof.
  apply (place_camera_overwrites (1, 1, 1) (2, 2, 2) 10 20 0.3 0.3 samples.scene0 _ eq_refl).
Defined.

End CameraMore.

(** ** The pass reconciler *)

Section ReconcilerMore.

Variable os : platform.

(** A turn of [move_render_passes] that raises leaves the file system as
    it found it: whatever fails, the missing file, the name of the
    target or the renaming, fails before anything is written. *)
Theorem move_render_pass_atomic (out d : Path) (fs fs' : filesystem) (e : exn) :
  move_render_pass os out (stem out) d fs = (Raised e, fs') -> fs' = fs.
Proof. apply move_render_pass_raises_keeps. Qed.

Lemma length_remove (fs : filesystem) (p : Path) :
  List.length (remove fs p) <= List.length fs.
Proof. unfold remove. apply filter_length_le. Qed.

Lemma rename_length (src dst : Path) (fs : filesystem) :
  List.length (snd (rename os src dst fs)) <= List.length fs.
Proof.
  pose proof (length_remove fs dst) as Hrm.
  assert (Hfile : List.length (move_file fs src dst) <= List.length fs)
    by (unfold move_file; rewrite length_map; exact Hrm).
  assert (Htree : List.length (move_tree fs src dst) <= List.length fs)
    by (unfold move_tree; rewrite length_map; exact Hrm).
  unfold rename.
  destruct (lookup fs src) as [n |]; [| cbn; lia].
  destruct (path_eqb src dst); [cbn; lia |].
  destruct (is_dir fs (parent dst)); cbn [negb]; [| cbn; lia].
  destruct (lookup fs dst) as [m |], os, n; try destruct m;
    try destruct (is_prefix src dst); try destruct (iterdir fs dst);
    cbn [snd]; lia.
Qed.

Lemma move_render_pass_length (out d : Path) (id : string) (fs : filesystem) :
  List.length (snd (move_render_pass os out id d fs)) <= List.length fs.
Proof.
  unfold move_render_pass, bind, get, lift.
  destruct (getitem (glob fs d "*.*") 0) as [e | f]; [cbn; lia |].
  destruct (new_filepath os out id (stem (parent f))) as [e | t]; [cbn; lia |].
  apply rename_length.
Qed.

(** [move_render_passes] creates nothing: whatever it is given and
    whether it raises or not, the file system has no more entries
    afterwards than before. *)
Theorem move_render_passes_adds_nothing (save_dirs : list Path) (out : Path)
        (fs : filesystem) :
  List.length (snd (move_render_passes os save_dirs out fs)) <= List.length fs.
Proof.
  unfold move_render_passes. revert fs.
  induction save_dirs as [| d ds IH]; intros fs; [cbn; lia |].
  cbn [for_each]. unfold bind.
  pose proof (move_render_pass_length out d (stem out) fs) as Hturn.
  destruct (move_render_pass os out (stem out) d fs) as [[e | []] fs1];
    cbn [snd] in *; [exact Hturn |].
  specialize (IH fs1). lia.
Qed.

End ReconcilerMore.

Lemma move_render_pass_atomic_witness :
  snd (move_render_pass Windows ["blender"; "A"] (stem ["blender"; "A"])
                        ["tmp"; "Normal"] samples.depth_only)
  = samples.depth_only.
Proof.
  apply (move_render_pass_atomic Windows ["blender"; "A"] ["tmp"; "Normal"]
           samples.depth_only _ IndexError).
  vm_compute. reflexivity.
Defined.

Section GlobFacts.

Lemma fnmatch_star (s : string) : fnmatch "*" s = true.
Proof.
  induction s as [| c s IH]; [reflexivity |].
  cbn in *. exact IH.
Qed.

(** The pattern [*.*] matches the names that contain a dot. *)
Lemma fnmatch_star_dot_star (s : string) :
  fnmatch "*.*" s = match rfind_dot s with Some _ => true | None => false end.
Proof.
  induction s as [| c s IH]; [reflexivity |].
  change (fnmatch "*.*" (String c s))
    with ((Ascii.eqb "." c && fnmatch "*" s) || fnmatch "*.*" s).
  rewrite fnmatch_star, IH, andb_true_r. cbn [rfind_dot].
  destruct (rfind_dot s); [apply orb_true_r |].
  rewrite orb_false_r, Ascii.eqb_sym. destruct (Ascii.eqb c "."); reflexivity.
Qed.

Variable os : platform.

(** A file without a dot in its name is not collected: when no name in
    the first staging directory has a dot, [move_render_passes] raises
    [IndexError] as if the directory were empty, and moves nothing. *)
Theorem move_render_passes_needs_dot (d out : Path) (rest : list Path)
        (fs : filesystem) :
  (forall p, In p (iterdir fs d) -> rfind_dot (name p) = None) ->
  move_render_passes os (d :: rest) out fs = (Raised IndexError, fs).
Proof.
  intros Hplain. unfold move_render_passes. cbn [for_each].
  erewrite bind_raised; [reflexivity |].
  apply move_render_pass_empty. unfold glob.
  destruct (is_dir fs d); [| reflexivity].
  apply filter_none. intros p Hp.
  rewrite fnmatch_star_dot_star, (Hplain p Hp). reflexivity.
Qed.

End GlobFacts.

Lemma move_render_passes_needs_dot_witness :
  move_render_passes Posix [["tmp"; "Depth"]] ["blender"; "A"]
    (samples.directories ++ [(["tmp"; "Depth"; "Image0001"], File "depth of A")])
  = (Raised IndexError,
     samples.directories ++ [(["tmp"; "Depth"; "Image0001"], File "depth of A")]).
Proof.
  apply (move_render_passes_needs_dot Posix).
  intros p [<- | []]. reflexivity.
Defined.

Section NamingFacts.

Open Scope string_scope.

Lemma string_length_append (a b : string) :
  String.length (a ++ b) = String.length a + String.length b.
Proof. induction a as [| c a IH]; cbn; [| rewrite IH]; reflexivity. Qed.

Lemma string_append_cancel_l (a x y : string) : a ++ x = a ++ y -> x = y.
Proof.
  induction a as [| c a IH]; cbn; [trivial |].
  intros H. injection H as H. apply IH. exact H.
Qed.

Lemma string_append_cancel_r (s x y : string) : x ++ s = y ++ s -> x = y.
Proof.
  revert y. induction x as [| c x IH]; intros y H.
  - destruct y as [| d y]; [reflexivity |].
    apply (f_equal String.length) in H. cbn in H.
    rewrite string_length_append in H. lia.
  - destruct y as [| d y].
    + apply (f_equal String.length) in H. cbn in H.
      rewrite string_length_append in H. lia.
    + cbn in H. injection H as -> H. f_equal. apply IH. exact H.
Qed.

(** On a POSIX host the name given to an output tells the layers apart:
    for an output whose name is not empty and has no dot and no
    separator, and for layer names without dots and separators, two
    layers get the same path only if they are the same layer. This is
    the name of the files of [move_render_passes]. *)
Theorem new_filepath_injective (out : Path) (layer1 layer2 : string) :
  name out <> EmptyString ->
  rfind_dot (name out) = None ->
  has_sep Posix (name out) = false ->
  rfind_dot layer1 = None -> has_sep Posix layer1 = false ->
  rfind_dot layer2 = None -> has_sep Posix layer2 = false ->
  new_filepath Posix out (stem out) layer1 = new_filepath Posix out (stem out) layer2 ->
  layer1 = layer2.
Proof.
  intros Hname Hdot Hsep Hd1 Hs1 Hd2 Hs2 Heq.
  rewrite !new_filepath_plain in Heq by assumption.
  injection Heq as Heq. apply app_inv_head in Heq. injection Heq as Heq.
  apply string_append_cancel_l in Heq.
  apply (string_append_cancel_l "_") in Heq.
  apply string_append_cancel_r in Heq. exact Heq.
Qed.

(** On a POSIX host, for one layer whose name has no dot and no
    separator, two records whose names are not empty and have no dot and
    no separator get the same path only if their names are the same. *)
Theorem new_filepath_injective_record (savedir : Path) (id1 id2 layer : string) :
  id1 <> EmptyString -> id2 <> EmptyString ->
  rfind_dot id1 = None -> has_sep Posix id1 = false ->
  rfind_dot id2 = None -> has_sep Posix id2 = false ->
  rfind_dot layer = None -> has_sep Posix layer = false ->
  new_filepath Posix (savedir ++ [id1])%list (stem (savedir ++ [id1])%list) layer
  = new_filepath Posix (savedir ++ [id2])%list (stem (savedir ++ [id2])%list) layer ->
  id1 = id2.
Proof.
  intros Hn1 Hn2 Hd1 Hs1 Hd2 Hs2 Hdl Hsl Heq.
  rewrite !new_filepath_plain in Heq
    by (rewrite ?name_snoc; assumption).
  rewrite !parent_snoc, !name_snoc in Heq.
  injection Heq as Heq. apply app_inv_head in Heq. injection Heq as Heq.
  apply string_append_cancel_r in Heq. exact Heq.
Qed.

End NamingFacts.

Lemma new_filepath_injective_witness :
  new_filepath Posix ["blender"; "A"] (stem ["blender"; "A"]) "Depth"
  <> new_filepath Posix ["blender"; "A"] (stem ["blender"; "A"]) "Normal".
Proof.
  intros H.
  apply (new_filepath_injective ["blender"; "A"] "Depth" "Normal") in H;
    try reflexivity; discriminate.
Defined.

Lemma new_filepath_injective_record_witness :
  new_filepath Posix ["blender"; "A"] (stem ["blender"; "A"]) "Depth"
  <> new_filepath Posix ["blender"; "B"] (stem ["blender"; "B"]) "Depth".
Proof.
  intros H.
  apply (new_filepath_injective_record ["blender"] "A" "B" "Depth") in H;
    try reflexivity; discriminate.
Defined.

Section Drain.

Variable os : platform.

(** A reconciliation cannot be repeated without a new render: after
    [move_render_passes] has moved the files of staging directories that
    were ready, a second call on the same table raises [IndexError] at
    the first directory and changes nothing. *)
Theorem move_render_passes_not_repeatable (out : Path) (j : staged)
        (js : list staged) (fs : filesystem) :
  is_dir fs (parent out) = true ->
  (forall k, In k (j :: js) -> ready os out fs k) ->
  (forall k, In k (j :: js) -> k.(staging_dir) <> parent out) ->
  NoDup (map staging_dir (j :: js)) ->
  NoDup (map target (j :: js)) ->
  exists fs',
    move_render_passes os (map staging_dir (j :: js)) out fs = (Returned tt, fs')
    /\ move_render_passes os (map staging_dir (j :: js)) out fs'
       = (Raised IndexError, fs').
Proof.
  intros Hout Hready Hdirs Hnd Hnt.
  destruct (move_render_passes_ready os out (j :: js) fs Hout Hready Hdirs Hnd Hnt)
    as (fs' & Hrun & Hmoved & _ & _).
  exists fs'. split; [exact Hrun |].
  destruct (Hmoved j (or_introl eq_refl)) as (_ & _ & Hempty).
  cbn [map]. unfold move_render_passes. cbn [for_each].
  erewrite bind_raised; [reflexivity |].
  apply move_render_pass_empty. unfold glob. rewrite Hempty.
  destruct (is_dir fs' (staging_dir j)); reflexivity.
Qed.

End Drain.

Lemma move_render_passes_not_repeatable_witness :
  exists fs',
    move_render_passes Windows [["tmp"; "Depth"]; ["tmp"; "Normal"]]
                       ["blender"; "A"] samples.rendered = (Returned tt, fs')
    /\ move_render_passes Windows [["tmp"; "Depth"]; ["tmp"; "Normal"]]
                          ["blender"; "A"] fs' = (Raised IndexError, fs').
Proof.
  apply (move_render_passes_not_repeatable Windows ["blender"; "A"]
           (hd (Build_staged [] [] EmptyString []) samples.rendered_passes)
           (tl samples.rendered_passes) samples.rendered).
  - reflexivity.
  - intros k [<- | [<- | []]]; repeat split; reflexivity.
  - intros k [<- | [<- | []]]; discriminate.
  - repeat constructor; cbn; intuition discriminate.
  - repeat constructor; cbn; intuition discriminate.
Defined.

(** ** The driver *)

Section DriverMore.

Import math blender driver.

Variable os : platform.
Variable render_still : Exc world unit.
Variable read_feather : Path -> Exc world (list row).

Lemma in_scene_eq {A} (m : Exc scene A) (w : world) (r : result A) (sc' : scene) :
  m w.(the_scene) = (r, sc') ->
  in_scene m w = (r, {| files := w.(files); the_scene := sc' |}).
Proof. intros H. unfold in_scene, zoom. rewrite H. reflexivity. Qed.

Lemma default_aspect_ratio_nonzero : default_aspect_ratio <> 0%R.
Proof. unfold default_aspect_ratio. lra. Qed.

Lemma main2_camera (w : world) :
  in_scene (create_camera default_width default_aspect_ratio) w =
  (Returned tt, {| files := w.(files); the_scene := with_new_camera w.(the_scene) |}).
Proof.
  apply in_scene_eq. apply create_camera_eq. exact default_aspect_ratio_nonzero.
Qed.

(** [main2], with its locals named. *)
Lemma main2_eq :
  main2 os render_still read_feather =
  (in_scene (create_camera default_width default_aspect_ratio) ;;;
   save_dirs <- in_scene (create_nodes os (tmp_dir os) render_pass_names) ;;
   lat <- in_scene (scene_getitem "lat") ;;
   lon <- in_scene (scene_getitem "lon") ;;
   rows <- read_data read_feather (dataset_path os) ;;
   for_each rows
     (main2_record os render_still
        (TransverseMercator.init lat lon TransverseMercator.default_scale)
        save_dirs (savedir os)))%py.
Proof.
  unfold main2, tmp_dir, savedir, dataset_path, root_dir, render_pass_names.
  reflexivity.
Qed.

(** [main2] asks for the passes [Depth], [Normal] and [DiffCol]: when the
    render-layers node does not offer one of them, [main2] raises
    [KeyError] with the name of the first one missing, before the dataset
    is read or anything is rendered, and no file is touched. *)
Theorem main2_missing_pass (w : world) (pre post : list string) (nm : string) :
  render_pass_names = pre ++ nm :: post ->
  links_closed w.(the_scene).(tree) ->
  (forall p, In p pre -> In p w.(the_scene).(view_layer_passes)) ->
  ~ In nm w.(the_scene).(view_layer_passes) ->
  exists sc',
    main2 os render_still read_feather w =
    (Raised (KeyError nm), {| files := w.(files); the_scene := sc' |}).
Proof.
  intros Hsplit Hclosed Hpre Hnm. rewrite main2_eq.
  erewrite bind_returned by apply main2_camera.
  rewrite Hsplit.
  eexists. erewrite bind_raised.
  2:{ apply in_scene_eq. cbn [the_scene].
      apply (create_nodes_unknown os _ pre post nm (with_new_camera (the_scene w)));
        assumption. }
  cbn [files]. reflexivity.
Qed.

Lemma main2_nodes (w : world) :
  links_closed w.(the_scene).(tree) ->
  (forall p, In p render_pass_names -> In p w.(the_scene).(view_layer_passes)) ->
  in_scene (create_nodes os (tmp_dir os) render_pass_names)
           {| files := w.(files); the_scene := with_new_camera w.(the_scene) |} =
  (Returned (map (joinpath os (tmp_dir os)) render_pass_names), after_setup os w).
Proof.
  intros Hclosed Hpass. unfold in_scene, zoom. cbn [the_scene files].
  rewrite (create_nodes_eq os (tmp_dir os) render_pass_names
             (with_new_camera (the_scene w))) by assumption.
  reflexivity.
Qed.

(** [main2] reads the origin of the projection from the custom
    properties [lat] and [lon] of the scene: when one is missing it
    raises [KeyError] with that name, after the camera and the render
    graph are set up and before the dataset is read. *)
Theorem main2_missing_property (w : world) :
  links_closed w.(the_scene).(tree) ->
  (forall p, In p render_pass_names -> In p w.(the_scene).(view_layer_passes)) ->
  (assoc "lat" w.(the_scene).(properties) = None ->
   main2 os render_still read_feather w = (Raised (KeyError "lat"), after_setup os w))
  /\ (forall lat0,
        assoc "lat" w.(the_scene).(properties) = Some lat0 ->
        assoc "lon" w.(the_scene).(properties) = None ->
        main2 os render_still read_feather w
        = (Raised (KeyError "lon"), after_setup os w)).
Proof.
  intros Hclosed Hpass. split.
  - intros Hlat. rewrite main2_eq.
    erewrite bind_returned by apply main2_camera.
    erewrite bind_returned by (apply main2_nodes; assumption).
    erewrite bind_raised.
    2:{ apply in_scene_eq. unfold scene_getitem.
        cbn [the_scene after_setup properties set_tree with_new_camera].
        rewrite Hlat. reflexivity. }
    reflexivity.
  - intros lat0 Hlat Hlon. rewrite main2_eq.
    erewrite bind_returned by apply main2_camera.
    erewrite bind_returned by (apply main2_nodes; assumption).
    erewrite bind_returned.
    2:{ apply in_scene_eq. unfold scene_getitem.
        cbn [the_scene after_setup properties set_tree with_new_camera].
        rewrite Hlat. reflexivity. }
    erewrite bind_raised.
    2:{ apply in_scene_eq. unfold scene_getitem.
        cbn [the_scene after_setup properties set_tree with_new_camera].
        rewrite Hlon. reflexivity. }
    reflexivity.
Qed.

(** [main2] handles the rows in order and stops at the first one whose
    turn raises: the rows after it are not placed, rendered or
    reconciled, and the exception and the world are those of that turn. *)
Theorem main2_halts (w w1 w2 : world) (lat0 lon0 : R)
        (done rest : list row) (failing : row) (e : exn) :
  let projection := TransverseMercator.init lat0 lon0 TransverseMercator.default_scale in
  let save_dirs := map (joinpath os (tmp_dir os)) render_pass_names in
  let turn := main2_record os render_still projection save_dirs (savedir os) in
  links_closed w.(the_scene).(tree) ->
  (forall p, In p render_pass_names -> In p w.(the_scene).(view_layer_passes)) ->
  assoc "lat" w.(the_scene).(properties) = Some lat0 ->
  assoc "lon" w.(the_scene).(properties) = Some lon0 ->
  read_feather (dataset_path os) (after_setup os w)
    = (Returned (done ++ failing :: rest), after_setup os w) ->
  for_each done turn (after_setup os w) = (Returned tt, w1) ->
  turn failing w1 = (Raised e, w2) ->
  main2 os render_still read_feather w = (Raised e, w2).
Proof.
  intros projection save_dirs turn Hclosed Hpass Hlat Hlon Hread Hdone Hfail.
  rewrite main2_eq.
  erewrite bind_returned by apply main2_camera.
  erewrite bind_returned by (apply main2_nodes; assumption).
  erewrite bind_returned.
  2:{ apply in_scene_eq. unfold scene_getitem.
      cbn [the_scene after_setup properties set_tree with_new_camera].
      rewrite Hlat. reflexivity. }
  erewrite bind_returned.
  2:{ apply in_scene_eq. unfold scene_getitem.
      cbn [the_scene after_setup properties set_tree with_new_camera].
      rewrite Hlon. reflexivity. }
  unfold read_data.
  erewrite bind_returned by exact Hread.
  rewrite for_each_app.
  erewrite bind_returned by exact Hdone.
  cbn [for_each]. erewrite bind_raised by exact Hfail. reflexivity.
Qed.

(** The turn of one record, when nothing fails: the projection returns,
    the scene has a camera, the render returns and leaves every staging
    directory ready. Then the turn returns, every staged file is at its
    target with its content, every staging directory is empty, and the
    scene is the one the render left. *)
Theorem main2_record_success (projection : TransverseMercator.t)
        (js : list staged) (savedir : Path) (image_id : string)
        (lon lat alt angle x y : R) (w w1 w2 : world) :
  let out := joinpath os savedir image_id in
  TransverseMercator.from_geographic projection lat lon = Returned (x, y) ->
  in_scene (place_camera (x, y, alt) angle default_offset_altitude) w
    = (Returned tt, w1) ->
  render_still w1 = (Returned tt, w2) ->
  is_dir w2.(files) (parent out) = true ->
  (forall j, In j js -> ready os out w2.(files) j) ->
  (forall j, In j js -> j.(staging_dir) <> parent out) ->
  NoDup (map staging_dir js) ->
  NoDup (map target js) ->
  exists fs',
    main2_record os render_still projection (map staging_dir js) savedir
                 (image_id, lon, lat, alt, angle) w
    = (Returned tt, {| files := fs'; the_scene := w2.(the_scene) |})
    /\ forall j, In j js ->
         lookup fs' j.(target) = Some (File j.(staged_content))
         /\ iterdir fs' j.(staging_dir) = [].
Proof.
  intros out Hxy Hplace Hrender Hout Hready Hdirs Hnd Hnt.
  destruct (move_render_passes_ready os out js w2.(files) Hout Hready Hdirs Hnd Hnt)
    as (fs' & Hrun & Hmoved & _ & _).
  exists fs'. split.
  - unfold main2_record.
    unfold lift at 1. erewrite bind_returned by (rewrite Hxy; reflexivity).
    cbv beta iota.
    erewrite bind_returned by exact Hplace.
    erewrite bind_returned by exact Hrender.
    unfold in_files, zoom. fold out. rewrite Hrun. reflexivity.
  - intros j Hin. destruct (Hmoved j Hin) as (Ht & _ & Hd). split; assumption.
Qed.

End DriverMore.

Lemma stale_tree_closed : links_closed samples.stale_scene.(tree).
Proof.
  intros l [<- | []]. cbn. split; [left | right; left]; reflexivity.
Qed.

Lemma main2_missing_pass_witness :
  fst (blender.main2 Windows samples.render_depth_only scenarios.one_row
                     scenarios.depth_world)
  = Raised (KeyError "Normal").
Proof.
  destruct (main2_missing_pass Windows samples.render_depth_only scenarios.one_row
              scenarios.depth_world ["Depth"] ["DiffCol"] "Normal") as [sc' H].
  - reflexivity.
  - exact stale_tree_closed.
  - intros p [<- | []]. cbn. tauto.
  - cbn. intuition discriminate.
  - rewrite H. reflexivity.
Defined.

Lemma main2_missing_property_witness :
  fst (blender.main2 Windows samples.render_depth_only scenarios.one_row
                     samples.bare_world)
  = Raised (KeyError "lat").
Proof.
  destruct (main2_missing_property Windows samples.render_depth_only
              scenarios.one_row samples.bare_world) as [H _].
  - exact stale_tree_closed.
  - intros p [<- | [<- | [<- | []]]]; cbn; tauto.
  - rewrite H; reflexivity.
Defined.

Lemma main2_halts_witness :
  fst (blender.main2 Windows samples.render_depth_only scenarios.one_row
                     scenarios.equator_world)
  = Raised ZeroDivisionError.
Proof.
  rewrite (main2_halts Windows samples.render_depth_only scenarios.one_row
             scenarios.equator_world
             (driver.after_setup Windows scenarios.equator_world)
             (driver.after_setup Windows scenarios.equator_world)
             0%R 0%R [] [] scenarios.quarter_turn ZeroDivisionError).
  - reflexivity.
  - exact stale_tree_closed.
  - intros p [<- | [<- | [<- | []]]]; cbn; tauto.
  - reflexivity.
  - reflexivity.
  - reflexivity.
  - reflexivity.
  - unfold blender.main2_record, scenarios.quarter_turn, lift.
    erewrite bind_raised; [reflexivity |].
    unfold TransverseMercator.default_scale. rewrite from_geographic_0_90.
    reflexivity.
Defined.

Lemma main2_record_success_witness :
  exists fs',
    blender.main2_record Windows scenarios.render_both
      (TransverseMercator.init 45 45 1)
      (map staging_dir samples.rendered_passes) ["blender"]
      ("A", 45%R, 45%R, 10%R, 0%R) samples.first_world
    = (Returned tt,
       {| blender.files := fs';
          blender.the_scene :=
            blender.the_scene
              (snd (blender.in_scene
                      (blender.place_camera (0, 0, 10)%R 0%R
                         blender.default_offset_altitude)
                      samples.first_world)) |})
    /\ lookup fs' ["blender"; "A_Normal.jpg"] = Some (File "normal of A").
Proof.
  destruct (main2_record_success Windows scenarios.render_both
              (TransverseMercator.init 45 45 1) samples.rendered_passes
              ["blender"] "A" 45%R 45%R 10%R 0%R 0%R 0%R samples.first_world
              (snd (blender.in_scene
                      (blender.place_camera (0, 0, 10)%R 0%R
                         blender.default_offset_altitude)
                      samples.first_world))
              (snd (scenarios.render_both
                      (snd (blender.in_scene
                              (blender.place_camera (0, 0, 10)%R 0%R
                                 blender.default_offset_altitude)
                              samples.first_world)))))
    as (fs' & Hrun & Hall).
  - apply from_geographic_origin. lra.
  - reflexivity.
  - reflexivity.
  - reflexivity.
  - intros j [<- | [<- | []]]; repeat split; reflexivity.
  - intros j [<- | [<- | []]]; discriminate.
  - repeat constructor; cbn; intuition discriminate.
  - repeat constructor; cbn; intuition discriminate.
  - exists fs'. split; [exact Hrun |].
    apply (Hall _ (or_intror (or_introl eq_refl))).
Defined.

(** ** [Remap] and [toNumpy] *)

Section RemapFacts.

Import remap rescale.
Open Scope R_scope.



(** With [in_min = in_max] the call raises [ZeroDivisionError] for every
    argument, of a supported type or not, and changes nothing. *)
Theorem call_empty_range (self : Remap) (imgs : argument) :
  self.(in_min) = self.(in_max) ->
  call self imgs = (Raises (Builtin ZeroDivisionError), imgs).
Proof.
  intros Heq. unfold call.
  replace (in_max self - in_min self) with 0 by lra.
  rewrite truediv_zero. reflexivity.
Qed.

Lemma call_empty_range_witness :
  call {| in_min := 1; in_max := 1; out_min := -1; out_max := 1 |} Other
  = (Raises (Builtin ZeroDivisionError), Other).
Proof. apply call_empty_range. reflexivity. Defined.

Lemma dict_get_set_same (d : dict) (key : string) (v : Tensor) :
  dict_get (dict_set d key v) key = Some v.
Proof.
  induction d as [| [k w] d IH]; cbn.
  - rewrite String.eqb_refl. reflexivity.
  - destruct (String.eqb k key) eqn:E; cbn; rewrite E; [reflexivity | exact IH].
Qed.

Lemma dict_get_set_other (d : dict) (key key' : string) (v : Tensor) :
  key' <> key ->
  dict_get (dict_set d key v) key' = dict_get d key'.
Proof.
  intros Hne. induction d as [| [k w] d IH]; cbn.
  - destruct (String.eqb_spec key key'); [congruence | reflexivity].
  - destruct (String.eqb_spec k key) as [-> | Hk]; cbn.
    + destruct (String.eqb_spec key key'); [congruence | reflexivity].
    + destruct (String.eqb k key'); [reflexivity | exact IH].
Qed.

Lemma dict_set_keys (d : dict) (key : string) (v w : Tensor) :
  dict_get d key = Some w ->
  map fst (dict_set d key v) = map fst d.
Proof.
  induction d as [| [k u] d IH]; cbn; [discriminate |].
  destruct (String.eqb k key); cbn; [reflexivity |].
  intros H. rewrite IH by exact H. reflexivity.
Qed.

(** On a [dict] that has both keys, [Remap] changes the [dict] in place
    and returns it: the two images are remapped, every other entry and
    the order of the keys stay. *)
Theorem call_dict (self : Remap) (d : dict) (streetview simulated : Tensor) :
  self.(in_max) <> self.(in_min) ->
  dict_get d "streetview" = Some streetview ->
  dict_get d "simulated" = Some simulated ->
  let s := (self.(out_max) - self.(out_min)) / (self.(in_max) - self.(in_min)) in
  exists d' : dict,
    call self (Dict d) = (Returns (Dict d'), Dict d')
    /\ dict_get d' "streetview"
       = Some (affine self.(in_min) s self.(out_min) streetview)
    /\ dict_get d' "simulated"
       = Some (affine self.(in_min) s self.(out_min) simulated)
    /\ (forall key, key <> "streetview"%string -> key <> "simulated"%string ->
          dict_get d' key = dict_get d key)
    /\ map fst d' = map fst d.
Proof.
  intros Hne Hsv Hsim s. unfold call. rewrite truediv_ok by lra. fold s.
  rewrite Hsv.
  rewrite (dict_get_set_other d "streetview" "simulated") by discriminate.
  rewrite Hsim.
  eexists. split; [reflexivity |]. split; [| split; [| split]].
  - rewrite dict_get_set_other by discriminate. apply dict_get_set_same.
  - apply dict_get_set_same.
  - intros key H1 H2. rewrite !dict_get_set_other by assumption. reflexivity.
  - rewrite (dict_set_keys _ "simulated" _ simulated).
    + apply (dict_set_keys _ "streetview" _ streetview). exact Hsv.
    + rewrite dict_get_set_other by discriminate. exact Hsim.
Qed.

(** On a [dict] that has [streetview] and not [simulated], [Remap] raises
    [KeyError] after it has remapped [streetview] in the caller's
    [dict]. *)
Theorem call_dict_partial (self : Remap) (d : dict) (streetview : Tensor) :
  self.(in_max) <> self.(in_min) ->
  dict_get d "streetview" = Some streetview ->
  dict_get d "simulated" = None ->
  let s := (self.(out_max) - self.(out_min)) / (self.(in_max) - self.(in_min)) in
  exists d' : dict,
    call self (Dict d) = (Raises (Builtin (KeyError "simulated")), Dict d')
    /\ dict_get d' "streetview"
       = Some (affine self.(in_min) s self.(out_min) streetview).
Proof.
  intros Hne Hsv Hsim s. unfold call. rewrite truediv_ok by lra. fold s.
  rewrite Hsv.
  rewrite (dict_get_set_other d "streetview" "simulated") by discriminate.
  rewrite Hsim.
  eexists. split; [reflexivity |]. apply dict_get_set_same.
Qed.

End RemapFacts.

Lemma call_dict_witness :
  exists d' : rescale.dict,
    rescale.call
      {| rescale.in_min := 0; rescale.in_max := 255;
         rescale.out_min := -1; rescale.out_max := 1 |}
      (rescale.Dict
         [("streetview", {| remap.shape := [3; 2; 2]; remap.at_index := fun _ => 0%R |});
          ("simulated", {| remap.shape := [3; 2; 2]; remap.at_index := fun _ => 255%R |});
          ("mask", {| remap.shape := [2; 2]; remap.at_index := fun _ => 1%R |})])
    = (rescale.Returns (rescale.Dict d'), rescale.Dict d')
    /\ map fst d' = ["streetview"; "simulated"; "mask"].
Proof.
  destruct (call_dict
              {| rescale.in_min := 0; rescale.in_max := 255;
                 rescale.out_min := -1; rescale.out_max := 1 |}
              [("streetview", {| remap.shape := [3; 2; 2]; remap.at_index := fun _ => 0%R |});
               ("simulated", {| remap.shape := [3; 2; 2]; remap.at_index := fun _ => 255%R |});
               ("mask", {| remap.shape := [2; 2]; remap.at_index := fun _ => 1%R |})]
              _ _ ltac:(cbn; lra) eq_refl eq_refl)
    as (d' & Hcall & _ & _ & _ & Hkeys).
  exists d'. split; [exact Hcall | exact Hkeys].
Defined.

Lemma call_dict_partial_witness :
  exists d' : rescale.dict,
    rescale.call
      {| rescale.in_min := 0; rescale.in_max := 255;
         rescale.out_min := -1; rescale.out_max := 1 |}
      (rescale.Dict
         [("streetview", {| remap.shape := [3; 2; 2]; remap.at_index := fun _ => 0%R |})])
    = (rescale.Raises (rescale.Builtin (KeyError "simulated")), rescale.Dict d').
Proof.
  destruct (call_dict_partial
              {| rescale.in_min := 0; rescale.in_max := 255;
                 rescale.out_min := -1; rescale.out_max := 1 |}
              [("streetview", {| remap.shape := [3; 2; 2]; remap.at_index := fun _ => 0%R |})]
              _ ltac:(cbn; lra) eq_refl eq_refl)
    as (d' & Hcall & _).
  exists d'. exact Hcall.
Defined.

Section ToNumpyMore.

Import remap.

Context {elt f32 : Type} (to_float32 : elt -> f32).

(** The two branches of [toNumpy] agree: the array of a batch of images
    has, at the image number [b], the array of the image [imgs[b]]. *)
Theorem toNumpy_call_batch (imgs : ndarray elt) (n c h w b : nat) :
  shape imgs = [n; c; h; w] ->
  b < n ->
  exists (batch : ndarray f32) (one : ndarray f32),
    toNumpy_call to_float32 imgs = Returned batch
    /\ toNumpy_call to_float32 (rescale.select imgs b) = Returned one
    /\ shape batch = n :: shape one
    /\ forall i j k, at_index batch [b; i; j; k] = at_index one [i; j; k].
Proof.
  intros Hs Hb. eexists. eexists. split; [| split; [| split]].
  - apply (toNumpy_call_rank4 to_float32 imgs n c h w Hs).
  - apply (toNumpy_call_rank3 to_float32 (rescale.select imgs b) c h w).
    cbn. rewrite Hs. reflexivity.
  - cbn. rewrite Hs. reflexivity.
  - intros i j k. cbn. rewrite Hs. reflexivity.
Qed.

End ToNumpyMore.

Lemma toNumpy_call_batch_witness :
  exists batch one : remap.ndarray Z,
    remap.toNumpy_call Z.of_nat
      {| remap.shape := [2; 3; 4; 4]; remap.at_index := fun idx => hd 0 idx |}
    = Returned batch
    /\ remap.toNumpy_call Z.of_nat
         (rescale.select
            {| remap.shape := [2; 3; 4; 4]; remap.at_index := fun idx => hd 0 idx |} 1)
       = Returned one
    /\ remap.shape batch = 2 :: remap.shape one
    /\ forall i j k, remap.at_index batch [1; i; j; k] = remap.at_index one [i; j; k].
Proof.
  apply (toNumpy_call_batch Z.of_nat
           {| remap.shape := [2; 3; 4; 4]; remap.at_index := fun idx => hd 0 idx |}
           2 3 4 4 1).
  - reflexivity.
  - lia.
Defined.
